(** * ReactorX: the adiabatic equilibrium calculator

    A shallow embedding of the numerical core of
    [src/AdiabticEquilibriumCalculator.jsx]: the equilibrium model
    ([computeK], [computeThermodynamicConversion],
    [computeEnergyBalanceConversion]), the damped Newton solver
    ([solveForIntersection]) and the multi-stage driver ([runCalculation]).

    Number model.  JavaScript numbers are taken as real numbers ([R]), the
    domain the equilibrium model is written for.  The program computes in
    double precision, and the two agree only where the doubles behave like
    reals:
    - a quotient by zero is an infinity or NaN in the program ([Rabs deltaH]
      at [Hb = Ha], [1 / t] at [t = 0], [1 + k] at [k = -1]); a statement
      whose content depends on such a quotient keeps the divisor away from
      zero by a hypothesis;
    - [Math.exp] overflows to infinity above an argument of about 709 and
      underflows to 0 below about -745, and [k / (1 + k)] is rounded to
      exactly 1 from [k] of about 9e15 on and is NaN for an infinite [k]; the
      statements about the range or the monotonicity of the equilibrium curve
      bound the equilibrium constant, and a statement about the values of a
      run that has to hold of NaN too is phrased through the comparison the
      program itself makes, which is false of NaN: [~ x < y] rather than
      [y <= x];
    - the chart loop adds [STEP_SIZE] to a running temperature; the sums are
      exact in the program for a whole-number [T0] of moderate size, which
      the statement about the number of chart points assumes.

    Effects.  [runCalculation] reads the component's [inputs] and writes
    [error], [reactorStages] and [results]; it is embedded in a small state
    monad over the component state, and every call of the solver is recorded
    in a call log next to that state.

    The rest of the component.  The change handler of the form
    ([handleInputChange]), the button's [disabled] condition, the stage
    colours ([getColorSet]) and the chart data ([chartData]) are embedded as
    functions of the component state; an edit carries the name of its input
    and the number its text parses to.  Formatting of numbers for display is
    not modelled. *)

From Stdlib Require Import Reals Lra Lia Bool Arith String DecimalString List.
Import ListNotations.
Local Open Scope R_scope.

(** ** Comparisons of numbers, as booleans *)

Definition Rltb (x y : R) : bool := if Rlt_dec x y then true else false.
Definition Rleb (x y : R) : bool := if Rle_dec x y then true else false.
Definition Reqb (x y : R) : bool := if Req_dec_T x y then true else false.

Infix "<?" := Rltb : R_scope.
Infix "<=?" := Rleb : R_scope.
Infix "=?" := Reqb : R_scope.

(** ** Constants (lines 24-28) *)

Definition R_VALUE : R := 1.987.
Definition ITER_MAX : nat := 50.
Definition TOLERANCE : R := 0.0001.
Definition STAGE_LIMIT : nat := 5.

(** ** Equilibrium model (lines 30-42) *)

(** Over the reals [exp] is positive and finite everywhere and a quotient
    by zero is 0.  The program's [Math.exp] overflows and underflows, its
    [k / (1 + k)] is rounded to exactly 1 for a large [k], and its quotients
    by zero are infinite or NaN; the statements below that depend on the
    difference bound the arguments accordingly. *)

Definition computeK (t baseK deltaH : R) : R :=
  let expTerm := (deltaH / R_VALUE) * (1 / 298 - 1 / t) in
  baseK * exp expTerm.

Definition computeThermodynamicConversion (t baseK deltaH : R) : R :=
  let k := computeK t baseK deltaH in
  k / (1 + k).

Definition computeEnergyBalanceConversion
    (t initialTemp heatCapacity deltaH : R) : R :=
  (heatCapacity * (t - initialTemp)) / Rabs deltaH.

(** ** The Newton solver (lines 44-107) *)

Record ReactorParams : Type := mkParams {
  baseK : R;
  deltaH : R;
  heatCapacity : R
}.

Record StageResult : Type := mkStage {
  eqTemp : R;
  conversion : R;
  iterations : nat
}.

Section Solver.

(** The arguments of [solveForIntersection] that its inner functions close
    over. *)
Variables (cumulativeConversion startingTemp : R) (reactorParams : ReactorParams).

Definition objectiveFunction (t : R) : R :=
  computeThermodynamicConversion t (baseK reactorParams) (deltaH reactorParams) -
  (cumulativeConversion +
   computeEnergyBalanceConversion t startingTemp
     (heatCapacity reactorParams) (deltaH reactorParams)).

Definition calculateDerivative (t : R) : R :=
  let delta := 0.01 in
  (objectiveFunction (t + delta) - objectiveFunction t) / delta.

(** Lines 76-88: the move made in one iteration that did not break. *)
Definition newtonMove (t fValue : R) : R :=
  let derivative := calculateDerivative t in
  if Rabs derivative <? 1e-10 then
    t + (if 0 <? fValue then -10 else 10)
  else
    let nextT := t - fValue / derivative in
    if 100 <? Rabs (nextT - t) then t - (0.5 * fValue) / derivative
    else nextT.

(** Lines 90-92. *)
Definition clamp (t : R) : R :=
  if t <? startingTemp then startingTemp + 1 else t.

(** The whole body of an iteration that does not break: the new [t]. *)
Definition newtonStep (t : R) : R :=
  clamp (newtonMove t (objectiveFunction t)).

(** Lines 69-95: [while (count < ITER_MAX)].  Each iteration increments
    [count], so [ITER_MAX - count] iterations always suffice; [fuel] counts
    them down and [newtonLoop_fuel] shows the loop never stops for lack of
    it. *)
Fixpoint newtonLoop (fuel : nat) (t : R) (count : nat) : R * nat :=
  match fuel with
  | O => (t, count)
  | S fuel' =>
    if (count <? ITER_MAX)%nat then
      let fValue := objectiveFunction t in
      if Rabs fValue <? TOLERANCE then (t, count)
      else newtonLoop fuel' (clamp (newtonMove t fValue)) (S count)
    else (t, count)
  end.

(** The same loop, recording in order every temperature at which
    [objectiveFunction] is evaluated: once at the head of an iteration and,
    through [calculateDerivative], at [t + 0.01] and at [t]. *)
Fixpoint newtonLoopEvals (fuel : nat) (t : R) (count : nat) : list R :=
  match fuel with
  | O => []
  | S fuel' =>
    if (count <? ITER_MAX)%nat then
      let fValue := objectiveFunction t in
      if Rabs fValue <? TOLERANCE then [t]
      else t :: (t + 0.01) :: t ::
           newtonLoopEvals fuel' (clamp (newtonMove t fValue)) (S count)
    else []
  end.

End Solver.

Definition solveForIntersection
    (initTemp cumulativeConversion startingTemp : R)
    (reactorParams : ReactorParams) : StageResult :=
  let '(t, count) :=
    newtonLoop cumulativeConversion startingTemp reactorParams
      ITER_MAX (initTemp + 100) 0 in
  let finalX :=
    computeThermodynamicConversion t (baseK reactorParams) (deltaH reactorParams) in
  {| eqTemp := t; conversion := finalX; iterations := count |}.

(** The temperatures at which one call of [solveForIntersection] evaluates
    its objective, in order. *)
Definition solveEvals
    (initTemp cumulativeConversion startingTemp : R)
    (reactorParams : ReactorParams) : list R :=
  newtonLoopEvals cumulativeConversion startingTemp reactorParams
    ITER_MAX (initTemp + 100) 0.

(** ** The component state (lines 121-149) *)

Record Inputs : Type := mkInputs {
  Ha : R;
  Hb : R;
  Ca : R;
  Cb : R;
  Fa0 : R;
  Ke : R;
  temperature : R;
  T0 : R;
  coolingTemp : R;
  targetConversion : R
}.

Definition defaultInputs : Inputs :=
  {| Ha := -40000; Hb := -60000; Ca := 50; Cb := 50; Fa0 := 40; Ke := 100000;
     temperature := 300; T0 := 300; coolingTemp := 350;
     targetConversion := 0.8 |}.

(** The object handed to [setResults] (lines 338-352); in its own name space
    because it has an [iterations] field like [StageResult]. *)
Module Results.
Record t : Type := mk {
  Xe : R;
  Xeb : R;
  keAtTemp : R;
  intersection : string;
  adiabaticEqTemp : R;
  eqConversion : R;
  iterations : nat;
  stages : list StageResult;
  finalConversion : R;
  targetReached : bool
}.
End Results.

Record Component : Type := mkComponent {
  inputs : Inputs;
  results : option Results.t;
  reactorStages : list StageResult;
  error : option string
}.

Definition initialComponent : Component :=
  {| inputs := defaultInputs; results := None; reactorStages := [];
     error := None |}.

(** [derivedParams], the memoised function of [inputs] (lines 142-149). *)
Definition derivedParams (i : Inputs) : ReactorParams :=
  {| deltaH := Hb i - Ha i; heatCapacity := Ca i; baseK := Ke i |}.

(** ** Effects of [runCalculation] *)

(** One call of the solver, with its arguments. *)
Record SolverCall : Type := mkCall {
  call_initTemp : R;
  call_cumulativeConversion : R;
  call_startingTemp : R;
  call_reactorParams : ReactorParams
}.

Record World : Type := mkWorld {
  component : Component;
  solverCalls : list SolverCall
}.

Definition M (A : Type) : Type := World -> A * World.

Definition ret {A} (a : A) : M A := fun w => (a, w).

Definition bind {A B} (m : M A) (k : A -> M B) : M B :=
  fun w => let '(a, w') := m w in k a w'.

Declare Scope calc_scope.
Delimit Scope calc_scope with calc.
Notation "x <- m ;; k" := (bind m (fun x => k))
  (at level 61, m at next level, right associativity) : calc_scope.
Notation "m ;; k" := (bind m (fun _ => k))
  (at level 61, right associativity) : calc_scope.

Definition onComponent (f : Component -> Component) : M unit :=
  fun w => (tt, {| component := f (component w); solverCalls := solverCalls w |}).

Definition getInputs : M Inputs := fun w => (inputs (component w), w).

Definition setError (e : option string) : M unit :=
  onComponent (fun c =>
    {| inputs := inputs c; results := results c;
       reactorStages := reactorStages c; error := e |}).

Definition setReactorStages (l : list StageResult) : M unit :=
  onComponent (fun c =>
    {| inputs := inputs c; results := results c;
       reactorStages := l; error := error c |}).

Definition setResults (r : Results.t) : M unit :=
  onComponent (fun c =>
    {| inputs := inputs c; results := Some r;
       reactorStages := reactorStages c; error := error c |}).

(** A call of [solveForIntersection] from [runCalculation]: the value is the
    solver's, and the call is appended to the log. *)
Definition solve (initTemp cumulativeConversion startingTemp : R)
    (reactorParams : ReactorParams) : M StageResult :=
  fun w =>
    (solveForIntersection initTemp cumulativeConversion startingTemp reactorParams,
     {| component := component w;
        solverCalls := solverCalls w ++
          [mkCall initTemp cumulativeConversion startingTemp reactorParams] |}).

(** ** The multi-stage driver (lines 287-353) *)

Definition validationMessage : string :=
  "Error: Cpa and Cpb must be equal for this calculation model.".

Section Driver.
Local Open Scope calc_scope.

(** Lines 321-334.  The loop runs only while [reactorCount < STAGE_LIMIT]
    and each iteration increments [reactorCount]; [fuel] counts the
    iterations down, and [stageLoop_fuel] shows it never runs out. *)
Fixpoint stageLoop (coolingTemp targetConversion : R) (params : ReactorParams)
    (fuel : nat) (reactors : list StageResult) (totalConversion : R)
    (reactorCount : nat) : M (list StageResult * R) :=
  match fuel with
  | O => ret (reactors, totalConversion)
  | S fuel' =>
    if (totalConversion <? targetConversion) &&
       (reactorCount <? STAGE_LIMIT)%nat then
      nextReactor <- solve coolingTemp totalConversion coolingTemp params ;;
      let reactors := reactors ++ [nextReactor] in
      let totalConversion := conversion nextReactor in
      let reactorCount := S reactorCount in
      if 0.99 <? totalConversion then ret (reactors, totalConversion)
      else stageLoop coolingTemp targetConversion params
             fuel' reactors totalConversion reactorCount
    else ret (reactors, totalConversion)
  end.

Definition runCalculation : M unit :=
  inputs <- getInputs ;;
  if negb (Ca inputs =? Cb inputs) then
    setError (Some validationMessage)
  else
    setError None ;;
    let params := derivedParams inputs in
    let k := computeK (temperature inputs) (baseK params) (deltaH params) in
    let thermodynamicX :=
      computeThermodynamicConversion
        (temperature inputs) (baseK params) (deltaH params) in
    let energyBalanceX :=
      computeEnergyBalanceConversion
        (temperature inputs) (T0 inputs) (heatCapacity params) (deltaH params) in
    firstReactor <- solve (T0 inputs) 0 (T0 inputs) params ;;
    loopEnd <- stageLoop (coolingTemp inputs) (targetConversion inputs) params
                 STAGE_LIMIT [firstReactor] (conversion firstReactor) 1 ;;
    let '(reactors, totalConversion) := loopEnd in
    setReactorStages reactors ;;
    setResults
      {| Results.Xe := thermodynamicX;
         Results.Xeb := energyBalanceX;
         Results.keAtTemp := k;
         Results.intersection :=
           if Rabs (thermodynamicX - energyBalanceX) <? 0.01
           then "Yes (within 1%)"%string else "No"%string;
         Results.adiabaticEqTemp := eqTemp firstReactor;
         Results.eqConversion := conversion firstReactor;
         Results.iterations := iterations firstReactor;
         Results.stages := reactors;
         Results.finalConversion := totalConversion;
         Results.targetReached := targetConversion inputs <=? totalConversion |}.

End Driver.

(** Pressing the button in component state [c]: the state afterwards, and the
    solver calls that were made. *)
Definition press (c : Component) : Component * list SolverCall :=
  let '(_, w) := runCalculation {| component := c; solverCalls := [] |} in
  (component w, solverCalls w).

Definition after (c : Component) : Component := fst (press c).
Definition callsOf (c : Component) : list SolverCall := snd (press c).

(** ** Auxiliary definitions for the statements *)

(** The exponent of [computeK], as a function of the temperature. *)
Definition expTerm (t deltaH : R) : R := (deltaH / R_VALUE) * (1 / 298 - 1 / t).

(** The temperature held by the solver after [n] iterations that did not
    break: [initTemp + 100], then one [newtonStep] per iteration. *)
Definition temperatureAfter (initTemp cumulativeConversion startingTemp : R)
    (reactorParams : ReactorParams) (n : nat) : R :=
  Nat.iter n (newtonStep cumulativeConversion startingTemp reactorParams)
    (initTemp + 100).

(** The first stage computed for inputs [i], and the call that computes
    it (lines 311-315). *)
Definition firstStage (i : Inputs) : StageResult :=
  solveForIntersection (T0 i) 0 (T0 i) (derivedParams i).

Definition firstCall (i : Inputs) : SolverCall :=
  mkCall (T0 i) 0 (T0 i) (derivedParams i).

(** The object [runCalculation] hands to [setResults] when the stage loop
    ended with stages [reactors] and conversion [totalConversion]. *)
Definition calculationResult (i : Inputs) (reactors : list StageResult)
    (totalConversion : R) : Results.t :=
  let params := derivedParams i in
  let thermodynamicX :=
    computeThermodynamicConversion (temperature i) (baseK params) (deltaH params) in
  let energyBalanceX :=
    computeEnergyBalanceConversion
      (temperature i) (T0 i) (heatCapacity params) (deltaH params) in
  {| Results.Xe := thermodynamicX;
     Results.Xeb := energyBalanceX;
     Results.keAtTemp := computeK (temperature i) (baseK params) (deltaH params);
     Results.intersection :=
       if Rabs (thermodynamicX - energyBalanceX) <? 0.01
       then "Yes (within 1%)"%string else "No"%string;
     Results.adiabaticEqTemp := eqTemp (firstStage i);
     Results.eqConversion := conversion (firstStage i);
     Results.iterations := iterations (firstStage i);
     Results.stages := reactors;
     Results.finalConversion := totalConversion;
     Results.targetReached := targetConversion i <=? totalConversion |}.

(** The stage loop as [runCalculation] starts it for inputs [i], run in
    component state [c] with the first call already logged. *)
Definition stagesRun (i : Inputs) (c : Component) :
    list StageResult * R * World :=
  stageLoop (coolingTemp i) (targetConversion i) (derivedParams i)
    STAGE_LIMIT [firstStage i] (conversion (firstStage i)) 1
    {| component := c; solverCalls := [firstCall i] |}.

(** The component state after [setError e]. *)
Definition withError (c : Component) (e : option string) : Component :=
  {| inputs := inputs c; results := results c;
     reactorStages := reactorStages c; error := e |}.

(** The stage sequence [rs] is chained: every stage after the first is the
    solver's answer for the cooling temperature and the conversion of the
    stage before it (lines 322-330). *)
Definition chained (cooling : R) (params : ReactorParams)
    (rs : list StageResult) : Prop :=
  forall (n : nat) (prev next : StageResult),
    nth_error rs n = Some prev -> nth_error rs (S n) = Some next ->
    next = solveForIntersection cooling (conversion prev) cooling params.

(** Inputs at which no quotient of the calculation has a zero divisor: the
    enthalpy change [Hb - Ha] is not zero, the equilibrium constant is not
    negative, and the feed and cooling temperatures are positive. *)
Definition regularInputs (i : Inputs) : Prop :=
  Hb i <> Ha i /\ 0 <= Ke i /\ 0 < T0 i /\ 0 < coolingTemp i.

(** The default inputs with a small equilibrium constant, [Ke = 0.000001]. *)
Definition lowKeInputs : Inputs :=
  {| Ha := -40000; Hb := -60000; Ca := 50; Cb := 50; Fa0 := 40; Ke := 0.000001;
     temperature := 300; T0 := 300; coolingTemp := 350;
     targetConversion := 0.8 |}.

Definition lowKeComponent : Component :=
  {| inputs := lowKeInputs; results := None; reactorStages := [];
     error := None |}.

(** The same with heat capacities 0: the energy-balance line is flat. *)
Definition flatInputs : Inputs :=
  {| Ha := -40000; Hb := -60000; Ca := 0; Cb := 0; Fa0 := 40; Ke := 0.000001;
     temperature := 300; T0 := 300; coolingTemp := 350;
     targetConversion := 0.8 |}.

Definition flatComponent : Component :=
  {| inputs := flatInputs; results := None; reactorStages := [];
     error := None |}.

(** ** Stage colours (lines 109-119) *)

Record ColorSet : Type := mkColorSet {
  primary : string;
  light : string
}.

Definition palette : list ColorSet :=
  [ {| primary := "rgb(0, 99, 132)"; light := "rgba(0, 99, 132, 0.5)" |};
    {| primary := "rgb(75, 192, 100)"; light := "rgba(75, 192, 100, 0.5)" |};
    {| primary := "rgb(255, 159, 64)"; light := "rgba(255, 159, 64, 0.5)" |};
    {| primary := "rgb(153, 102, 255)"; light := "rgba(153, 102, 255, 0.5)" |} ].

(** [palette[index]]: [None] stands for [undefined].  The stage number is an
    array index, a natural number. *)
Definition getColorSet (stageNum : nat) : option ColorSet :=
  let index := (stageNum mod length palette)%nat in
  nth_error palette index.

(** ** Editing an input (lines 186-211) *)

(** The [name] attributes of the input elements of the form (lines 367-475);
    there is none for [temperature]. *)
Inductive InputName : Type :=
  | NameHa | NameHb | NameCa | NameCb | NameFa0 | NameKe
  | NameT0 | NameCoolingTemp | NameTargetConversion.

(** [{ ...current, [name]: value }]. *)
Definition setInput (current : Inputs) (name : InputName) (value : R) : Inputs :=
  let upd (n : InputName) (old : R) : R :=
    match name, n with
    | NameHa, NameHa | NameHb, NameHb | NameCa, NameCa | NameCb, NameCb
    | NameFa0, NameFa0 | NameKe, NameKe | NameT0, NameT0
    | NameCoolingTemp, NameCoolingTemp
    | NameTargetConversion, NameTargetConversion => value
    | _, _ => old
    end in
  {| Ha := upd NameHa (Ha current); Hb := upd NameHb (Hb current);
     Ca := upd NameCa (Ca current); Cb := upd NameCb (Cb current);
     Fa0 := upd NameFa0 (Fa0 current); Ke := upd NameKe (Ke current);
     temperature := temperature current;
     T0 := upd NameT0 (T0 current);
     coolingTemp := upd NameCoolingTemp (coolingTemp current);
     targetConversion := upd NameTargetConversion (targetConversion current) |}.

(** The change handler, for an event whose target has name [name] and whose
    value parses to the number [value]. *)
Definition handleInputChange (name : InputName) (value : R) (c : Component) :
    Component :=
  let updatedInputs := setInput (inputs c) name value in
  let newError :=
    match name with
    | NameCa =>
      if negb (Ca updatedInputs =? Cb updatedInputs)
      then Some validationMessage else None
    | NameCb =>
      if negb (Cb updatedInputs =? Ca updatedInputs)
      then Some validationMessage else None
    | _ => error c
    end in
  {| inputs := updatedInputs; results := results c;
     reactorStages := reactorStages c; error := newError |}.

(** ** The form as a whole *)

(** The button's [disabled={error !== null}] (line 485). *)
Definition buttonDisabled (c : Component) : bool :=
  match error c with
  | None => false
  | Some _ => true
  end.

(** What the user can do: edit an input, or click the button, which calls
    [runCalculation] unless it is disabled. *)
Inductive Event : Type :=
  | Change (name : InputName) (value : R)
  | Click.

Definition handle (c : Component) (e : Event) : Component :=
  match e with
  | Change name value => handleInputChange name value c
  | Click => if buttonDisabled c then c else after c
  end.

(** The component state after a sequence of events, starting from the
    initial state (lines 135-138). *)
Definition session (events : list Event) : Component :=
  fold_left handle events initialComponent.

(** ** The chart data (lines 213-285) *)

Definition STEP_SIZE : R := 10.

(** A chart dataset; [None] in [data] stands for [null], and [borderDash] is
    absent from the two base datasets. *)
Record DataSet : Type := mkDataSet {
  label : string;
  data : list (option R);
  borderColor : string;
  backgroundColor : string;
  borderDash : option (list nat)
}.

Record ChartData : Type := mkChartData {
  labels : list R;
  datasets : list DataSet
}.

(** Lines 223-231: [for (let t = T0; t <= T0 + 500; t += STEP_SIZE)].  The
    three arrays grow together; [fuel] bounds the number of iterations and
    [chartLoop_grid] shows that 52 is never exhausted.  The sums
    [t + STEP_SIZE] are exact here; in the program they are exact for a
    whole-number [T0] of moderate size, and rounded otherwise. *)
Fixpoint chartLoop (fuel : nat) (T0 heatCapacity deltaH baseK : R) (t : R)
    (temps thermodynamicConversions energyBalanceConversions : list R) :
    list R * list R * list R :=
  match fuel with
  | O => (temps, thermodynamicConversions, energyBalanceConversions)
  | S fuel' =>
    if t <=? T0 + 500 then
      chartLoop fuel' T0 heatCapacity deltaH baseK (t + STEP_SIZE)
        (temps ++ [t])
        (thermodynamicConversions ++
         [computeThermodynamicConversion t baseK deltaH])
        (energyBalanceConversions ++
         [computeEnergyBalanceConversion t T0 heatCapacity deltaH])
    else (temps, thermodynamicConversions, energyBalanceConversions)
  end.

(** A number used as a condition is true when it is not zero. *)
Definition truthy (x : R) : bool := negb (x =? 0).

(** Lines 255-265. *)
Definition stageEnergyBalance (temps : list R)
    (coolingTemp prevX heatCapacity deltaH : R) : list (option R) :=
  map (fun t =>
         if coolingTemp <=? t
         then Some (prevX +
                    computeEnergyBalanceConversion t coolingTemp heatCapacity deltaH)
         else None)
      temps.

(** [`Stage ${idx + 1} Energy Balance`]. *)
Definition stageLabel (idx : nat) : string :=
  ("Stage " ++ NilZero.string_of_uint (Nat.to_uint (idx + 1)) ++
   " Energy Balance")%string.

(** Lines 251-278: the body of [reactorStages.forEach((stage, idx) => ...)]
    for the stages from index [idx] on, [rest]; [reactorStages] is the whole
    array, read at [idx - 1].  That index is in range whenever it is read
    ([idx <> 0]); the fallbacks for a missing stage or colour are never
    taken. *)
Fixpoint forEachStage (reactorStages : list StageResult) (temps : list R)
    (coolingTemp heatCapacity deltaH : R)
    (idx : nat) (rest : list StageResult) (dataSets : list DataSet) :
    list DataSet :=
  match rest with
  | [] => dataSets
  | stage :: rest' =>
    let dataSets' :=
      if truthy (eqTemp stage) && truthy (conversion stage) then
        let prevX :=
          if (idx =? 0)%nat then 0
          else match nth_error reactorStages (idx - 1) with
               | Some prev => conversion prev
               | None => 0
               end in
        let stageData :=
          stageEnergyBalance temps coolingTemp prevX heatCapacity deltaH in
        if negb (idx =? 0)%nat then
          match getColorSet idx with
          | Some colorSet =>
            dataSets ++
            [ {| label := stageLabel idx;
                 data := stageData;
                 borderColor := primary colorSet;
                 backgroundColor := light colorSet;
                 borderDash := Some [5%nat; 5%nat] |} ]
          | None => dataSets
          end
        else dataSets
      else dataSets in
    forEachStage reactorStages temps coolingTemp heatCapacity deltaH
      (S idx) rest' dataSets'
  end.

Definition chartData (c : Component) : ChartData :=
  let i := inputs c in
  let params := derivedParams i in
  let '(temps, thermodynamicConversions, energyBalanceConversions) :=
    chartLoop 52 (T0 i) (heatCapacity params) (deltaH params) (baseK params)
      (T0 i) [] [] [] in
  let dataSets :=
    [ {| label := "Xe (Thermodynamic)";
         data := map Some thermodynamicConversions;
         borderColor := "rgb(53, 162, 235)";
         backgroundColor := "rgba(53, 162, 235, 0.5)";
         borderDash := None |};
      {| label := "Xeb (Energy Balance)";
         data := map Some energyBalanceConversions;
         borderColor := "rgb(255, 99, 132)";
         backgroundColor := "rgba(255, 99, 132, 0.5)";
         borderDash := None |} ] in
  let dataSets :=
    if (0 <? length (reactorStages c))%nat then
      forEachStage (reactorStages c) temps (coolingTemp i)
        (heatCapacity params) (deltaH params) 0 (reactorStages c) dataSets
    else dataSets in
  {| labels := temps; datasets := dataSets |}.

(** The temperature of the [k]th chart point. *)
Definition gridTemp (T0 : R) (k : nat) : R := T0 + 10 * INR k.

(** The stage that a logged call computes. *)
Definition runCall (call : SolverCall) : StageResult :=
  solveForIntersection (call_initTemp call) (call_cumulativeConversion call)
    (call_startingTemp call) (call_reactorParams call).

(** Every stage of [rs] but the last has a conversion below the target, and
    every such stage after the first one a conversion of at most 0.99: the
    loop went on after it. *)
Definition continuedAfter (target : R) (rs : list StageResult) : Prop :=
  forall (n : nat) (s : StageResult),
    nth_error rs n = Some s -> (S n < length rs)%nat ->
    conversion s < target /\ ((1 <= n)%nat -> conversion s <= 0.99).

(** [inputs[name]], for the names of the form. *)
Definition getInput (i : Inputs) (name : InputName) : R :=
  match name with
  | NameHa => Ha i
  | NameHb => Hb i
  | NameCa => Ca i
  | NameCb => Cb i
  | NameFa0 => Fa0 i
  | NameKe => Ke i
  | NameT0 => T0 i
  | NameCoolingTemp => coolingTemp i
  | NameTargetConversion => targetConversion i
  end.

(** The solver and the loops are compared by name: when two terms are
    checked for equality, the definitions above them are unfolded first. *)
Strategy 100 [newtonLoop solveForIntersection stageLoop runCalculation].

(** * Properties *)

(** ** Comparisons *)

Lemma Rltb_true (x y : R) : (x <? y) = true <-> x < y.
Proof.
  unfold Rltb. destruct (Rlt_dec x y); split; intros; try easy; discriminate.
Qed.

Lemma Rltb_false (x y : R) : (x <? y) = false <-> y <= x.
Proof.
  unfold Rltb. destruct (Rlt_dec x y); split; intros; try easy;
    try discriminate; lra.
Qed.

Lemma Rleb_true (x y : R) : (x <=? y) = true <-> x <= y.
Proof.
  unfold Rleb. destruct (Rle_dec x y); split; intros; try easy; discriminate.
Qed.

Lemma Reqb_true (x y : R) : (x =? y) = true <-> x = y.
Proof.
  unfold Reqb. destruct (Req_dec_T x y); split; intros; try easy; discriminate.
Qed.

Lemma Reqb_false (x y : R) : (x =? y) = false <-> x <> y.
Proof.
  unfold Reqb. destruct (Req_dec_T x y); split; intros; try easy; discriminate.
Qed.

Lemma Rltb_lt (x y : R) : x < y -> (x <? y) = true.
Proof. apply Rltb_true. Qed.

Lemma Rltb_ge (x y : R) : y <= x -> (x <? y) = false.
Proof. apply Rltb_false. Qed.

(** ** The equilibrium model *)

Lemma R_VALUE_pos : 0 < R_VALUE.
Proof. unfold R_VALUE. lra. Qed.

Lemma computeK_expTerm (t k0 dH : R) : computeK t k0 dH = k0 * exp (expTerm t dH).
Proof. reflexivity. Qed.

Lemma computeK_pos (t k0 dH : R) : 0 < k0 -> 0 < computeK t k0 dH.
Proof.
  intros Hk. rewrite computeK_expTerm.
  apply Rmult_lt_0_compat; [assumption | apply exp_pos].
Qed.

(** On positive arguments [k / (1 + k)] lies strictly between 0 and 1 and
    increases strictly with [k]. *)
Lemma ratio_unit (k : R) : 0 < k -> 0 < k / (1 + k) < 1.
Proof.
  intros Hk. split.
  - apply Rdiv_lt_0_compat; lra.
  - apply Rmult_lt_reg_r with (1 + k); [lra |].
    unfold Rdiv. rewrite Rmult_assoc, Rinv_l by lra. lra.
Qed.

Lemma ratio_increasing (k1 k2 : R) :
  0 < k1 -> k1 < k2 -> k1 / (1 + k1) < k2 / (1 + k2).
Proof.
  intros H1 H12.
  replace (k1 / (1 + k1)) with (1 - / (1 + k1)) by (field; lra).
  replace (k2 / (1 + k2)) with (1 - / (1 + k2)) by (field; lra).
  assert (/ (1 + k2) < / (1 + k1)).
  { apply Rinv_lt_contravar; [apply Rmult_lt_0_compat; lra | lra]. }
  lra.
Qed.

Lemma ratio_below (k : R) : 0 < k -> k / (1 + k) < k.
Proof.
  intros Hk. apply Rmult_lt_reg_r with (1 + k); [lra |].
  unfold Rdiv. rewrite Rmult_assoc, Rinv_l by lra. nra.
Qed.

(** For an exothermic reaction the exponent falls as the temperature rises. *)
Lemma expTerm_decreasing (t1 t2 dH : R) :
  dH < 0 -> 0 < t1 -> t1 < t2 -> expTerm t2 dH < expTerm t1 dH.
Proof.
  intros HdH Ht1 Ht12. unfold expTerm.
  assert (Hinv : / t2 < / t1).
  { apply Rinv_lt_contravar; [apply Rmult_lt_0_compat; lra | lra]. }
  assert (Hq : dH / R_VALUE < 0).
  { unfold Rdiv. apply Rmult_neg_pos; [lra |].
    apply Rinv_0_lt_compat, R_VALUE_pos. }
  unfold Rdiv at 2 3 4 5. rewrite !Rmult_1_l.
  nra.
Qed.

Lemma thermo_unit (t k0 dH : R) :
  0 < k0 -> 0 < computeThermodynamicConversion t k0 dH < 1.
Proof.
  intros Hk. unfold computeThermodynamicConversion.
  apply ratio_unit, computeK_pos, Hk.
Qed.

Lemma thermo_decreasing (t1 t2 k0 dH : R) :
  0 < k0 -> dH < 0 -> 0 < t1 -> t1 < t2 ->
  computeThermodynamicConversion t2 k0 dH < computeThermodynamicConversion t1 k0 dH.
Proof.
  intros Hk HdH Ht1 Ht12. unfold computeThermodynamicConversion.
  apply ratio_increasing; [apply computeK_pos, Hk |].
  rewrite !computeK_expTerm.
  apply Rmult_lt_compat_l; [assumption |].
  apply exp_increasing, expTerm_decreasing; assumption.
Qed.

(** With [baseK = 0] the equilibrium constant, and with it the conversion,
    vanish at every temperature. *)
Lemma thermo_baseK_0 (t dH : R) : computeThermodynamicConversion t 0 dH = 0.
Proof.
  unfold computeThermodynamicConversion, computeK.
  cbv zeta. rewrite Rmult_0_l. unfold Rdiv. apply Rmult_0_l.
Qed.

(** C8. At the reference temperature 298 K the equilibrium constant is
    [baseK] itself, whatever the enthalpy change: the exponent is
    [(deltaH / R) * (1/298 - 1/298) = 0] and [exp 0 = 1]. *)
Theorem computeK_reference_point (k0 dH : R) : computeK 298 k0 dH = k0.
Proof.
  unfold computeK. cbv zeta.
  replace (dH / R_VALUE * (1 / 298 - 1 / 298)) with 0 by (unfold Rdiv; ring).
  rewrite exp_0. ring.
Qed.

(** At 300 K the default equilibrium constant is between 77000 and
    100000. *)
Lemma computeK_300 : 77000 <= computeK 300 100000 (-20000) <= 100000.
Proof.
  rewrite computeK_expTerm.
  assert (Hx : -0.23 <= expTerm 300 (-20000) <= 0)
    by (unfold expTerm, R_VALUE; lra).
  pose proof (exp_ineq1_le (expTerm 300 (-20000))) as Hlow.
  assert (Hup : exp (expTerm 300 (-20000)) <= 1).
  { destruct Hx as [_ [Hlt | ->]]; [| rewrite exp_0; lra].
    apply exp_increasing in Hlt. rewrite exp_0 in Hlt. lra. }
  lra.
Qed.

(** C2, as amended. Where the equilibrium constant is of moderate size
    (the temperature at least 1 K, the enthalpy change at most 1e9 in absolute
    value, [baseK] and the equilibrium constant at [t] between 1e-12 and
    1e12), the thermodynamic conversion lies strictly between 0 and 1; and
    when [deltaH < 0] it DECREASES as the temperature rises: the exponent of
    [computeK] never rises with the temperature, and the conversion at a
    higher temperature [t2] is strictly below the one at [t] as soon as the
    exponent has fallen by at least 1, that is, the equilibrium constant by
    the factor e.  (The bounds and the distance between the two temperatures
    keep the statement where double precision resolves the difference.) *)
Theorem thermodynamicConversion_range_and_monotone (t k0 dH : R) :
  1 <= t -> Rabs dH <= 1e9 ->
  1e-12 <= k0 <= 1e12 ->
  1e-12 <= computeK t k0 dH <= 1e12 ->
  0 < computeThermodynamicConversion t k0 dH < 1 /\
  (dH < 0 -> forall t2, t < t2 ->
     expTerm t2 dH <= expTerm t dH /\
     (expTerm t2 dH + 1 <= expTerm t dH ->
      computeThermodynamicConversion t2 k0 dH <
      computeThermodynamicConversion t k0 dH)).
Proof.
  intros Ht _ [Hk _] _. split.
  - apply thermo_unit. lra.
  - intros HdH t2 Ht2. split.
    + left. apply expTerm_decreasing; lra.
    + intros _. apply thermo_decreasing; lra.
Qed.

Lemma thermodynamicConversion_range_and_monotone_witness :
  0 < computeThermodynamicConversion 300 100000 (-20000) < 1 /\
  expTerm 400 (-20000) + 1 <= expTerm 300 (-20000) /\
  computeThermodynamicConversion 400 100000 (-20000) <
  computeThermodynamicConversion 300 100000 (-20000).
Proof.
  assert (Hsep : expTerm 400 (-20000) + 1 <= expTerm 300 (-20000))
    by (unfold expTerm, R_VALUE; lra).
  destruct (thermodynamicConversion_range_and_monotone 300 100000 (-20000))
    as [Hrange Hmono].
  - lra.
  - rewrite Rabs_left; lra.
  - lra.
  - pose proof computeK_300. lra.
  - split; [exact Hrange |]. split; [exact Hsep |].
    apply (Hmono ltac:(lra) 400 ltac:(lra)), Hsep.
Defined.

(** C2 as stated fails twice: with [baseK = 0] the conversion is 0, which is
    not strictly inside (0,1); and with the default coefficients
    ([baseK = 100000], [deltaH = -20000]) the conversion at 400 K, about
    0.95, is below the one at 300 K, about 0.99999, so it is not
    increasing. *)
Lemma thermodynamicConversion_claim_fails :
  ~ (0 < computeThermodynamicConversion 300 0 (-20000) < 1) /\
  300 < 400 /\
  ~ (computeThermodynamicConversion 300 100000 (-20000) <
     computeThermodynamicConversion 400 100000 (-20000)).
Proof.
  split; [| split].
  - rewrite thermo_baseK_0. lra.
  - lra.
  - assert (H := thermo_decreasing 300 400 100000 (-20000)).
    lra.
Qed.

(** ** The Newton loop *)

Lemma flat_map_seq_S {A : Type} (g : nat -> list A) (n : nat) :
  flat_map g (seq 0 (S n)) = g 0%nat ++ flat_map (fun k => g (S k)) (seq 0 n).
Proof.
  cbn [seq flat_map]. f_equal.
  rewrite <- seq_shift, flat_map_concat_map, map_map, <- flat_map_concat_map.
  reflexivity.
Qed.

Section SolverFacts.

Variables (cum start : R) (p : ReactorParams).

Local Abbreviation f := (objectiveFunction cum start p).
Local Abbreviation step := (newtonStep cum start p).
Local Abbreviation loop := (newtonLoop cum start p).


(** What the loop returns, in terms of the sequence of temperatures
    [t, step t, step (step t), ...]: it stops at the first one whose
    residual is within the tolerance, or at the cap. *)
Lemma newtonLoop_spec (fuel : nat) (t : R) (count : nat) :
  (ITER_MAX - count <= fuel)%nat ->
  exists n : nat,
    loop fuel t count = (Nat.iter n step t, (count + n)%nat) /\
    (count + n <= Nat.max count ITER_MAX)%nat /\
    (forall k, (k < n)%nat -> TOLERANCE <= Rabs (f (Nat.iter k step t))) /\
    ((count + n < ITER_MAX)%nat -> Rabs (f (Nat.iter n step t)) < TOLERANCE).
Proof.
  revert t count.
  induction fuel as [| fuel IH]; intros t count Hfuel; cbn [newtonLoop].
  - exists 0%nat. rewrite Nat.add_0_r. cbn [Nat.iter nat_rect].
    repeat split; try lia.
  - destruct (Nat.ltb_spec count ITER_MAX) as [Hlt | Hge].
    + destruct (Rabs (f t) <? TOLERANCE) eqn:Htol.
      * exists 0%nat. rewrite Nat.add_0_r. cbn [Nat.iter nat_rect].
        repeat split; try lia.
        intros _. apply Rltb_true, Htol.
      * destruct (IH (step t) (S count)) as (n & Hrun & Hle & Hbefore & Hstop);
          [lia |].
        exists (S n). rewrite Nat.iter_succ_r.
        replace (count + S n)%nat with (S count + n)%nat by lia.
        split; [exact Hrun |]. split; [lia |]. split; [| exact Hstop].
        intros [| k] Hk.
        -- cbn [Nat.iter nat_rect]. apply Rltb_false, Htol.
        -- rewrite Nat.iter_succ_r. apply Hbefore. lia.
    + exists 0%nat. rewrite Nat.add_0_r. cbn [Nat.iter nat_rect].
      repeat split; try lia.
Qed.

(** The clamp (lines 90-92) leaves a temperature that is not below the
    reference temperature; it does not enforce [startingTemp + 1]. *)
Lemma clamp_ge (t : R) : start <= clamp start t.
Proof.
  unfold clamp. destruct (t <? start) eqn:E; [lra |].
  apply Rltb_false, E.
Qed.

Lemma newtonStep_ge (t : R) : start <= step t.
Proof. apply clamp_ge. Qed.

Lemma newtonLoop_ge (fuel : nat) (t : R) (count : nat) :
  start <= t -> start <= fst (loop fuel t count).
Proof.
  revert t count.
  induction fuel as [| fuel IH]; intros t count Ht; cbn [newtonLoop].
  - exact Ht.
  - destruct (count <? ITER_MAX)%nat; [| exact Ht].
    destruct (Rabs _ <? TOLERANCE); [exact Ht |].
    apply IH, clamp_ge.
Qed.

(** After at least one iteration the temperature has been through the
    clamp. *)
Lemma newtonLoop_ge_moved (fuel : nat) (t : R) (count : nat) :
  (count < snd (loop fuel t count))%nat -> start <= fst (loop fuel t count).
Proof.
  destruct fuel as [| fuel]; cbn [newtonLoop].
  - cbn. lia.
  - destruct (count <? ITER_MAX)%nat; [| cbn; lia].
    destruct (Rabs _ <? TOLERANCE); [cbn; lia |].
    intros _. apply newtonLoop_ge, clamp_ge.
Qed.

(** The first evaluation of the objective is at the loop's starting
    temperature. *)
Lemma newtonLoopEvals_head (fuel : nat) (t : R) (count : nat) :
  (count < ITER_MAX)%nat ->
  hd_error (newtonLoopEvals cum start p (S fuel) t count) = Some t.
Proof.
  intros Hlt. cbn [newtonLoopEvals].
  destruct (Nat.ltb_spec count ITER_MAX); [| lia].
  destruct (Rabs _ <? TOLERANCE); reflexivity.
Qed.

(** The recorded evaluations follow the loop: three per completed
    iteration, and one more when the loop stops on the tolerance test. *)
Lemma newtonLoopEvals_length (fuel : nat) (t : R) (count : nat) :
  (ITER_MAX - count <= fuel)%nat ->
  let n := (snd (loop fuel t count) - count)%nat in
  length (newtonLoopEvals cum start p fuel t count) =
  (3 * n + (if (snd (loop fuel t count) <? ITER_MAX)%nat then 1 else 0))%nat.
Proof.
  revert t count.
  induction fuel as [| fuel IH]; intros t count Hfuel;
    cbn [newtonLoop newtonLoopEvals].
  - cbn [snd length]. destruct (Nat.ltb_spec count ITER_MAX); lia.
  - destruct (Nat.ltb_spec count ITER_MAX) as [Hlt | Hge].
    + destruct (Rabs _ <? TOLERANCE).
      * cbn [snd length]. destruct (Nat.ltb_spec count ITER_MAX); lia.
      * cbn [length]. rewrite IH by lia. cbv zeta.
        destruct (newtonLoop_spec fuel
                    (clamp start (newtonMove cum start p t
                       (objectiveFunction cum start p t))) (S count))
          as (n & Hrun & _); [lia |].
        rewrite Hrun. cbn [snd].
        destruct (S count + n <? ITER_MAX)%nat; lia.
    + cbn [snd length]. destruct (Nat.ltb_spec count ITER_MAX); lia.
Qed.

(** The recorded evaluations in full, in terms of what the loop returns:
    for each completed iteration the temperature it started from, that
    temperature plus 0.01 and the temperature again; and, when the loop
    stopped before the cap, the temperature of the tolerance test that
    stopped it. *)
Lemma newtonLoopEvals_trace (fuel : nat) (t : R) (count : nat) :
  (ITER_MAX - count <= fuel)%nat ->
  newtonLoopEvals cum start p fuel t count =
  flat_map (fun k => [Nat.iter k step t; Nat.iter k step t + 0.01;
                      Nat.iter k step t])
    (seq 0 (snd (loop fuel t count) - count)) ++
  (if (snd (loop fuel t count) <? ITER_MAX)%nat
   then [Nat.iter (snd (loop fuel t count) - count) step t] else []).
Proof.
  revert t count.
  induction fuel as [| fuel IH]; intros t count Hfuel;
    cbn [newtonLoop newtonLoopEvals].
  - cbn [snd]. rewrite Nat.sub_diag. cbn [seq flat_map app].
    destruct (Nat.ltb_spec count ITER_MAX); [lia | reflexivity].
  - destruct (Nat.ltb_spec count ITER_MAX) as [Hlt | Hge].
    + destruct (Rabs _ <? TOLERANCE).
      * cbn [snd]. rewrite Nat.sub_diag. cbn [seq flat_map app Nat.iter nat_rect].
        destruct (Nat.ltb_spec count ITER_MAX); [reflexivity | lia].
      * rewrite IH by lia.
        destruct (newtonLoop_spec fuel
                    (clamp start (newtonMove cum start p t
                       (objectiveFunction cum start p t))) (S count))
          as (n & Hrun & _); [lia |].
        rewrite Hrun. cbn [snd].
        replace (S count + n - S count)%nat with n by lia.
        replace (S count + n - count)%nat with (S n) by lia.
        rewrite flat_map_seq_S, <- app_assoc.
        change (Nat.iter 0 step t) with t. cbn [app].
        do 3 f_equal. f_equal.
        -- apply flat_map_ext. intros k. rewrite Nat.iter_succ_r. reflexivity.
        -- destruct (S count + n <? ITER_MAX)%nat; [| reflexivity].
           rewrite Nat.iter_succ_r. reflexivity.
    + cbn [snd]. rewrite Nat.sub_diag. cbn [seq flat_map app].
      destruct (Nat.ltb_spec count ITER_MAX); [lia | reflexivity].
Qed.

End SolverFacts.

(** ** The solver *)

Lemma solveForIntersection_eqTemp (initTemp cum start : R) (p : ReactorParams) :
  eqTemp (solveForIntersection initTemp cum start p) =
  fst (newtonLoop cum start p ITER_MAX (initTemp + 100) 0).
Proof.
  unfold solveForIntersection.
  destruct (newtonLoop cum start p ITER_MAX (initTemp + 100) 0).
  reflexivity.
Qed.

Lemma solveForIntersection_iterations (initTemp cum start : R) (p : ReactorParams) :
  iterations (solveForIntersection initTemp cum start p) =
  snd (newtonLoop cum start p ITER_MAX (initTemp + 100) 0).
Proof.
  unfold solveForIntersection.
  destruct (newtonLoop cum start p ITER_MAX (initTemp + 100) 0).
  reflexivity.
Qed.


Lemma solveForIntersection_conversion (initTemp cum start : R) (p : ReactorParams) :
  conversion (solveForIntersection initTemp cum start p) =
  computeThermodynamicConversion
    (eqTemp (solveForIntersection initTemp cum start p)) (baseK p) (deltaH p).
Proof.
  unfold solveForIntersection.
  destruct (newtonLoop cum start p ITER_MAX (initTemp + 100) 0).
  reflexivity.
Qed.

Lemma solveForIntersection_spec (initTemp cum start : R) (p : ReactorParams) :
  exists n : nat,
    eqTemp (solveForIntersection initTemp cum start p) =
      temperatureAfter initTemp cum start p n /\
    iterations (solveForIntersection initTemp cum start p) = n /\
    (n <= ITER_MAX)%nat /\
    (forall k, (k < n)%nat ->
       TOLERANCE <=
       Rabs (objectiveFunction cum start p (temperatureAfter initTemp cum start p k))) /\
    ((n < ITER_MAX)%nat ->
       Rabs (objectiveFunction cum start p (temperatureAfter initTemp cum start p n))
       < TOLERANCE).
Proof.
  destruct (newtonLoop_spec cum start p ITER_MAX (initTemp + 100) 0)
    as (n & Hrun & Hle & Hbefore & Hstop); [lia |].
  rewrite solveForIntersection_eqTemp, solveForIntersection_iterations, Hrun.
  exists n. unfold temperatureAfter.
  split; [reflexivity |]. split; [reflexivity |].
  split; [lia |]. split; assumption.
Qed.

Lemma solveForIntersection_ge (initTemp cum start : R) (p : ReactorParams) :
  start <= initTemp + 100 \/
  (0 < iterations (solveForIntersection initTemp cum start p))%nat ->
  start <= eqTemp (solveForIntersection initTemp cum start p).
Proof.
  rewrite solveForIntersection_eqTemp, solveForIntersection_iterations.
  intros [H | H].
  - apply newtonLoop_ge, H.
  - apply newtonLoop_ge_moved, H.
Qed.

(** A solve that stopped before the cap stopped on the tolerance test. *)
Lemma solveForIntersection_converged (initTemp cum start : R) (p : ReactorParams) :
  (iterations (solveForIntersection initTemp cum start p) < ITER_MAX)%nat ->
  Rabs (objectiveFunction cum start p
          (eqTemp (solveForIntersection initTemp cum start p))) < TOLERANCE.
Proof.
  destruct (solveForIntersection_spec initTemp cum start p)
    as (n & Ht & Hn & _ & _ & Hstop).
  rewrite Ht, Hn. exact Hstop.
Qed.


(** C1, as amended. For a non-zero enthalpy change, a non-negative [baseK]
    and a positive reference temperature [startingTemp], when the first guess
    [initTemp + 100] is not below [startingTemp] (as in every call with
    [initTemp = startingTemp]), the temperature returned by the solver is
    never below [startingTemp]: the comparison [t < startingTemp] of the
    clamp is false of it.  The bound is [startingTemp], not
    [startingTemp + 1]. *)
Theorem solver_temperature_not_below_reference
    (initTemp cum start : R) (p : ReactorParams) :
  deltaH p <> 0 -> 0 <= baseK p -> 0 < start ->
  start <= initTemp + 100 ->
  ~ eqTemp (solveForIntersection initTemp cum start p) < start.
Proof.
  intros _ _ _ Hguess Hlt.
  pose proof (solveForIntersection_ge initTemp cum start p (or_introl Hguess)).
  lra.
Qed.

Lemma solver_temperature_not_below_reference_witness :
  ~ eqTemp (solveForIntersection 300 0 300 (mkParams 100000 (-20000) 50)) < 300.
Proof.
  apply (solver_temperature_not_below_reference 300 0 300
           (mkParams 100000 (-20000) 50)); cbn [deltaH baseK]; lra.
Defined.

(** ** The stage loop *)

Section StageLoopFacts.

Variables (cooling target : R) (params : ReactorParams).

Local Abbreviation nextStage total :=
  (solveForIntersection cooling total cooling params).
Local Abbreviation nextCall total := (mkCall cooling total cooling params).

(** One unfolding of the loop. *)
Lemma stageLoop_S (fuel : nat) (rs : list StageResult) (tot : R) (count : nat)
    (w : World) :
  stageLoop cooling target params (S fuel) rs tot count w =
  if (tot <? target) && (count <? STAGE_LIMIT)%nat then
    let w' := {| component := component w;
                 solverCalls := solverCalls w ++ [nextCall tot] |} in
    if 0.99 <? conversion (nextStage tot)
    then (rs ++ [nextStage tot], conversion (nextStage tot), w')
    else stageLoop cooling target params fuel (rs ++ [nextStage tot])
           (conversion (nextStage tot)) (S count) w'
  else (rs, tot, w).
Proof.
  cbn [stageLoop].
  destruct ((tot <? target) && (count <? STAGE_LIMIT)%nat); [| reflexivity].
  unfold bind, solve.
  destruct (0.99 <? conversion (nextStage tot)); reflexivity.
Qed.

(** Loop invariants: a property of the loop variables and of the call log
    that holds on entry and is kept by every iteration holds on exit.  The
    loop does not touch the component state. *)
Lemma stageLoop_invariant
    (P : list StageResult -> R -> nat -> list SolverCall -> Prop) :
  (forall rs tot count calls,
     P rs tot count calls -> tot < target -> (count < STAGE_LIMIT)%nat ->
     P (rs ++ [nextStage tot]) (conversion (nextStage tot)) (S count)
       (calls ++ [nextCall tot])) ->
  forall fuel rs tot count w,
    P rs tot count (solverCalls w) ->
    exists rs' tot' count' calls',
      stageLoop cooling target params fuel rs tot count w =
        (rs', tot', {| component := component w; solverCalls := calls' |}) /\
      P rs' tot' count' calls'.
Proof.
  intros Hkeep. induction fuel as [| fuel IH]; intros rs tot count w HP.
  - exists rs, tot, count, (solverCalls w). split; [| exact HP].
    destruct w; reflexivity.
  - rewrite stageLoop_S.
    destruct (tot <? target) eqn:Htot; cbn [andb].
    + destruct (Nat.ltb_spec count STAGE_LIMIT) as [Hlt | Hge].
      * apply Rltb_true in Htot.
        specialize (Hkeep rs tot count (solverCalls w) HP Htot Hlt).
        cbv zeta.
        destruct (0.99 <? conversion (nextStage tot)).
        -- do 4 eexists. split; [reflexivity | exact Hkeep].
        -- destruct (IH (rs ++ [nextStage tot]) (conversion (nextStage tot))
                        (S count)
                        {| component := component w;
                           solverCalls := solverCalls w ++ [nextCall tot] |}
                        Hkeep)
             as (rs' & tot' & count' & calls' & Hrun & HP').
           exists rs', tot', count', calls'. split; [exact Hrun | exact HP'].
      * exists rs, tot, count, (solverCalls w). split; [| exact HP].
        destruct w; reflexivity.
    + exists rs, tot, count, (solverCalls w). split; [| exact HP].
      destruct w; reflexivity.
Qed.

(** Fuel beyond [STAGE_LIMIT - count] is never used. *)
Lemma stageLoop_fuel (fuel1 fuel2 : nat) (rs : list StageResult) (tot : R)
    (count : nat) (w : World) :
  (STAGE_LIMIT - count <= fuel1)%nat -> (STAGE_LIMIT - count <= fuel2)%nat ->
  stageLoop cooling target params fuel1 rs tot count w =
  stageLoop cooling target params fuel2 rs tot count w.
Proof.
  revert fuel2 rs tot count w.
  induction fuel1 as [| fuel1 IH]; intros [| fuel2] rs tot count w H1 H2;
    rewrite ?stageLoop_S.
  - reflexivity.
  - cbn [stageLoop]. destruct (Nat.ltb_spec count STAGE_LIMIT); [lia |].
    rewrite andb_false_r. reflexivity.
  - cbn [stageLoop]. destruct (Nat.ltb_spec count STAGE_LIMIT); [lia |].
    rewrite andb_false_r. reflexivity.
  - destruct ((tot <? target) && (count <? STAGE_LIMIT)%nat) eqn:E;
      [| reflexivity].
    cbv zeta. destruct (0.99 <? conversion (nextStage tot)); [reflexivity |].
    apply IH; lia.
Qed.

(** The loop's outcome does not depend on the component state it runs in. *)
Lemma stageLoop_frame (fuel : nat) (rs : list StageResult) (tot : R)
    (count : nat) (c1 c2 : Component) (calls : list SolverCall) :
  forall rs' tot' calls',
    stageLoop cooling target params fuel rs tot count
      {| component := c1; solverCalls := calls |} =
      (rs', tot', {| component := c1; solverCalls := calls' |}) ->
    stageLoop cooling target params fuel rs tot count
      {| component := c2; solverCalls := calls |} =
      (rs', tot', {| component := c2; solverCalls := calls' |}).
Proof.
  revert rs tot count calls.
  induction fuel as [| fuel IH]; intros rs tot count calls rs' tot' calls'.
  - cbn [stageLoop]. unfold ret. intros H. injection H as -> -> ->. reflexivity.
  - rewrite !stageLoop_S. cbn [component solverCalls].
    destruct ((tot <? target) && (count <? STAGE_LIMIT)%nat).
    + cbv zeta. destruct (0.99 <? conversion (nextStage tot)).
      * intros H. injection H as -> -> ->. reflexivity.
      * apply IH.
    + intros H. injection H as -> -> ->. reflexivity.
Qed.

End StageLoopFacts.

(** ** The driver *)

(** With unequal heat capacities the only effect is the error message. *)
Lemma press_invalid (c : Component) :
  Ca (inputs c) <> Cb (inputs c) ->
  press c = (withError c (Some validationMessage), []).
Proof.
  intros Hne. unfold press, runCalculation, bind, getInputs.
  cbn [component].
  apply Reqb_false in Hne. rewrite Hne. cbn [negb].
  reflexivity.
Qed.

Lemma stagesRun_unfold (i : Inputs) (c : Component) :
  stagesRun i c =
  stageLoop (coolingTemp i) (targetConversion i) (derivedParams i)
    STAGE_LIMIT [solveForIntersection (T0 i) 0 (T0 i) (derivedParams i)]
    (conversion (solveForIntersection (T0 i) 0 (T0 i) (derivedParams i))) 1
    {| component := c;
       solverCalls := [mkCall (T0 i) 0 (T0 i) (derivedParams i)] |}.
Proof. reflexivity. Qed.

(** With equal heat capacities the button runs the first stage and the
    stage loop, then stores the stages and the results and clears the
    error. *)
Lemma press_valid (c c0 : Component) (rs : list StageResult) (tot : R)
    (calls : list SolverCall) :
  Ca (inputs c) = Cb (inputs c) ->
  stagesRun (inputs c) c0 =
    (rs, tot, {| component := c0; solverCalls := calls |}) ->
  press c =
    ({| inputs := inputs c;
        results := Some (calculationResult (inputs c) rs tot);
        reactorStages := rs;
        error := None |}, calls).
Proof.
  intros Heq Hrun. unfold press, runCalculation, bind, getInputs.
  cbn [component].
  apply Reqb_true in Heq. rewrite Heq. cbn [negb].
  unfold setError, onComponent, solve. cbn [component solverCalls app].
  rewrite stagesRun_unfold in Hrun.
  rewrite (stageLoop_frame _ _ _ _ _ _ _ c0 _ _ _ _ _ Hrun).
  unfold setReactorStages, setResults, onComponent, calculationResult, firstStage.
  cbn [component solverCalls inputs results reactorStages error].
  reflexivity.
Qed.

(** The stage loop, started as [runCalculation] starts it, always ends. *)
Lemma stagesRun_invariant (i : Inputs) (c : Component)
    (P : list StageResult -> R -> nat -> list SolverCall -> Prop) :
  (forall rs tot count calls,
     P rs tot count calls -> tot < targetConversion i ->
     (count < STAGE_LIMIT)%nat ->
     P (rs ++ [solveForIntersection (coolingTemp i) tot (coolingTemp i)
                 (derivedParams i)])
       (conversion (solveForIntersection (coolingTemp i) tot (coolingTemp i)
                      (derivedParams i)))
       (S count)
       (calls ++ [mkCall (coolingTemp i) tot (coolingTemp i) (derivedParams i)])) ->
  P [firstStage i] (conversion (firstStage i)) 1%nat [firstCall i] ->
  exists rs tot count calls,
    stagesRun i c = (rs, tot, {| component := c; solverCalls := calls |}) /\
    P rs tot count calls.
Proof.
  intros Hkeep Hinit. rewrite stagesRun_unfold.
  apply (stageLoop_invariant (coolingTemp i) (targetConversion i)
           (derivedParams i) P Hkeep STAGE_LIMIT _ _ 1%nat
           {| component := c;
              solverCalls := [mkCall (T0 i) 0 (T0 i) (derivedParams i)] |}).
  exact Hinit.
Qed.

Lemma after_valid (c c0 : Component) (rs : list StageResult) (tot : R)
    (calls : list SolverCall) :
  Ca (inputs c) = Cb (inputs c) ->
  stagesRun (inputs c) c0 =
    (rs, tot, {| component := c0; solverCalls := calls |}) ->
  after c =
    {| inputs := inputs c;
       results := Some (calculationResult (inputs c) rs tot);
       reactorStages := rs;
       error := None |} /\
  callsOf c = calls.
Proof.
  intros Heq Hrun. unfold after, callsOf.
  rewrite (press_valid c c0 rs tot calls Heq Hrun). split; reflexivity.
Qed.

(** C5. With equal heat capacities the calculation stores a result whose
    stage sequence, also kept as [reactorStages], has at least 1 and at most
    5 stages. *)
Theorem stage_count_between_1_and_5 (c : Component) :
  Ca (inputs c) = Cb (inputs c) ->
  exists r : Results.t,
    results (after c) = Some r /\
    reactorStages (after c) = Results.stages r /\
    (1 <= length (Results.stages r) <= 5)%nat.
Proof.
  intros Heq.
  destruct (stagesRun_invariant (inputs c) c
              (fun rs _ count _ =>
                 length rs = count /\ (1 <= count <= STAGE_LIMIT)%nat))
    as (rs & tot & count & calls & Hrun & Hlen & Hcount).
  - intros rs tot count calls [Hlen Hcount] _ Hlt.
    rewrite length_app. cbn [length]. lia.
  - cbn [length]. unfold STAGE_LIMIT. lia.
  - destruct (after_valid c c rs tot calls Heq Hrun) as [Hafter _].
    exists (calculationResult (inputs c) rs tot).
    rewrite Hafter. cbn [results reactorStages].
    unfold calculationResult. cbn [Results.stages].
    unfold STAGE_LIMIT in Hcount.
    split; [reflexivity |]. split; [reflexivity |]. lia.
Qed.

Lemma stage_count_between_1_and_5_witness :
  exists r : Results.t,
    results (after initialComponent) = Some r /\
    reactorStages (after initialComponent) = Results.stages r /\
    (1 <= length (Results.stages r) <= 5)%nat.
Proof.
  apply (stage_count_between_1_and_5 initialComponent).
  reflexivity.
Defined.

(** C6. With [Ca <> Cb] the calculation only sets the validation error: the
    solver is not called, and the stored results and stages (and the inputs)
    are those from before: no stage result and no calculation result is
    produced. *)
Theorem unequal_heat_capacities_block (c : Component) :
  Ca (inputs c) <> Cb (inputs c) ->
  callsOf c = [] /\
  error (after c) = Some validationMessage /\
  results (after c) = results c /\
  reactorStages (after c) = reactorStages c /\
  inputs (after c) = inputs c.
Proof.
  intros Hne. unfold after, callsOf. rewrite (press_invalid c Hne).
  repeat split.
Qed.

Lemma unequal_heat_capacities_block_witness :
  let c := {| inputs := mkInputs (-40000) (-60000) 50 40 40 100000 300 300 350 0.8;
              results := None; reactorStages := []; error := None |} in
  callsOf c = [] /\
  error (after c) = Some validationMessage /\
  results (after c) = results c /\
  reactorStages (after c) = reactorStages c /\
  inputs (after c) = inputs c.
Proof.
  intros c. apply (unequal_heat_capacities_block c).
  cbn [c inputs Ca Cb]. lra.
Defined.

(** C9. The outcome of the calculation is a function of the inputs alone:
    two component states with the same inputs (and [Ca = Cb], so that a
    result is produced), whatever results, stages or error they hold from
    before, end in the same state, with the same results in every field,
    after the same solver calls; and pressing the button again changes
    nothing. *)
Theorem calculation_deterministic (c1 c2 : Component) :
  inputs c1 = inputs c2 ->
  Ca (inputs c1) = Cb (inputs c1) ->
  after c1 = after c2 /\
  callsOf c1 = callsOf c2 /\
  after (after c1) = after c1.
Proof.
  intros Hin Heq.
  destruct (stagesRun_invariant (inputs c1) c1 (fun _ _ _ _ => True))
    as (rs & tot & _ & calls & Hrun & _); [intros; exact I | exact I |].
  destruct (after_valid c1 c1 rs tot calls Heq Hrun) as [H1 Hc1].
  assert (Heq2 : Ca (inputs c2) = Cb (inputs c2)) by (rewrite <- Hin; exact Heq).
  assert (Hrun2 : stagesRun (inputs c2) c1 =
                  (rs, tot, {| component := c1; solverCalls := calls |}))
    by (rewrite <- Hin; exact Hrun).
  destruct (after_valid c2 c1 rs tot calls Heq2 Hrun2) as [H2 Hc2].
  split; [| split].
  - rewrite H1, H2, Hin. reflexivity.
  - rewrite Hc1, Hc2. reflexivity.
  - assert (Hin3 : inputs (after c1) = inputs c1) by (rewrite H1; reflexivity).
    assert (Heq3 : Ca (inputs (after c1)) = Cb (inputs (after c1)))
      by (rewrite Hin3; exact Heq).
    assert (Hrun3 : stagesRun (inputs (after c1)) c1 =
                    (rs, tot, {| component := c1; solverCalls := calls |}))
      by (rewrite Hin3; exact Hrun).
    destruct (after_valid (after c1) c1 rs tot calls Heq3 Hrun3) as [H3 _].
    rewrite H3, Hin3, H1. reflexivity.
Qed.

Lemma calculation_deterministic_witness :
  let stale := {| inputs := defaultInputs; results := None;
                  reactorStages := [mkStage 0 0 0];
                  error := Some validationMessage |} in
  after initialComponent = after stale /\
  callsOf initialComponent = callsOf stale /\
  after (after initialComponent) = after initialComponent.
Proof.
  intros stale. apply (calculation_deterministic initialComponent stale).
  - reflexivity.
  - reflexivity.
Defined.

(** ** Bounds on the exponential and on the equilibrium curve *)

Lemma exp_8_ge : 256 <= exp 8.
Proof.
  assert (H1 : 2 <= exp 1) by (pose proof (exp_ineq1_le 1); lra).
  assert (H2 : 4 <= exp 2).
  { replace 2 with (1 + 1) by lra. rewrite exp_plus. nra. }
  assert (H4 : 16 <= exp 4).
  { replace 4 with (2 + 2) by lra. rewrite exp_plus. nra. }
  replace 8 with (4 + 4) by lra. rewrite exp_plus. nra.
Qed.

Lemma exp_below (x : R) : x <= -8 -> exp x <= / 256.
Proof.
  intros Hx.
  assert (H8 : exp (-8) <= / 256).
  { replace (-8) with (Ropp 8) by lra. rewrite exp_Ropp.
    apply Rinv_le_contravar; [lra | apply exp_8_ge]. }
  destruct (Rle_lt_or_eq_dec x (-8) Hx) as [Hlt | ->]; [| exact H8].
  apply exp_increasing in Hlt. lra.
Qed.

Lemma exp_nonpos (x : R) : x <= 0 -> exp x <= 1.
Proof.
  intros [Hlt | ->]; [| rewrite exp_0; lra].
  apply exp_increasing in Hlt. rewrite exp_0 in Hlt. lra.
Qed.

(** With the default enthalpy change the exponent at 400 K is about -8.6. *)
Lemma expTerm_400 : expTerm 400 (-20000) <= -8.
Proof. unfold expTerm, R_VALUE. lra. Qed.

Lemma expTerm_nonpos (t dH : R) : dH < 0 -> 298 <= t -> expTerm t dH <= 0.
Proof.
  intros HdH Ht. unfold expTerm.
  assert (Hq : dH / R_VALUE < 0).
  { unfold Rdiv. apply Rmult_neg_pos; [lra |].
    apply Rinv_0_lt_compat, R_VALUE_pos. }
  assert (Hinv : / t <= / 298) by (apply Rinv_le_contravar; lra).
  unfold Rdiv at 2 3. rewrite !Rmult_1_l. nra.
Qed.

(** Bounds on a quotient with a negative divisor. *)
Lemma quotient_bounds (f d lo hi : R) :
  d < 0 -> hi * d < f -> f < lo * d -> lo < f / d < hi.
Proof.
  intros Hd Hhi Hlo.
  assert (Hq : f = f / d * d) by (field; lra).
  split.
  - apply Rnot_le_lt. intros Hle. nra.
  - apply Rnot_le_lt. intros Hle. nra.
Qed.

(** The objective for the default enthalpies and heat capacity
    ([deltaH = -20000], [heatCapacity = 50]): the equilibrium curve minus a
    line of slope [1/400]. *)
Section ExothermicLine.

Variables (cum start : R) (p : ReactorParams).
Hypothesis Hk : 0 < baseK p.
Hypothesis HdH : deltaH p = -20000.
Hypothesis Hhc : heatCapacity p = 50.

Local Abbreviation X t := (computeThermodynamicConversion t (baseK p) (deltaH p)).

Lemma line_objective (t : R) :
  objectiveFunction cum start p t = X t - (cum + (t - start) / 400).
Proof.
  unfold objectiveFunction, computeEnergyBalanceConversion.
  rewrite Hhc, HdH. rewrite (Rabs_left (-20000)) by lra.
  field.
Qed.

Lemma line_derivative (t : R) :
  calculateDerivative cum start p t = (X (t + 0.01) - X t) / 0.01 - 0.0025.
Proof.
  unfold calculateDerivative. cbv zeta. rewrite !line_objective. lra.
Qed.

(** At or above 298 K the equilibrium conversion is below [baseK]. *)
Lemma line_X_small (t : R) : 298 <= t -> 0 < X t < baseK p.
Proof.
  intros Ht. split; [apply thermo_unit, Hk |].
  unfold computeThermodynamicConversion. cbv zeta.
  apply Rlt_le_trans with (computeK t (baseK p) (deltaH p)).
  - apply ratio_below, computeK_pos, Hk.
  - rewrite computeK_expTerm.
    assert (He : exp (expTerm t (deltaH p)) <= 1).
    { apply exp_nonpos, expTerm_nonpos; [rewrite HdH; lra | exact Ht]. }
    nra.
Qed.

Lemma line_X_decreasing (t1 t2 : R) : 0 < t1 -> t1 < t2 -> X t2 < X t1.
Proof.
  intros H1 H12. apply thermo_decreasing; try assumption. rewrite HdH. lra.
Qed.

Lemma line_X_400 : X 400 <= baseK p / 256.
Proof.
  unfold computeThermodynamicConversion. cbv zeta.
  apply Rle_trans with (computeK 400 (baseK p) (deltaH p)).
  - left. apply ratio_below, computeK_pos, Hk.
  - rewrite computeK_expTerm, HdH.
    pose proof (exp_below _ expTerm_400) as He.
    unfold Rdiv. nra.
Qed.

(** The derivative estimate of a temperature at or above 298 K is at most
    [-0.0025] (the slope of the energy-balance line) and within
    [100 * baseK] of it. *)
Lemma line_derivative_bounds (t : R) :
  298 <= t ->
  -0.0025 - 100 * X t < calculateDerivative cum start p t < -0.0025.
Proof.
  intros Ht. rewrite line_derivative.
  pose proof (line_X_small (t + 0.01) ltac:(lra)) as [H1 _].
  pose proof (line_X_decreasing t (t + 0.01) ltac:(lra) ltac:(lra)) as Hdec.
  lra.
Qed.

End ExothermicLine.

(** ** Single iterations of the Newton loop *)

Section NewtonSteps.

Variables (cum start : R) (p : ReactorParams).

Lemma newtonLoop_stop (fuel : nat) (t : R) (count : nat) :
  (count < ITER_MAX)%nat ->
  Rabs (objectiveFunction cum start p t) < TOLERANCE ->
  newtonLoop cum start p (S fuel) t count = (t, count).
Proof.
  intros Hc Hf. cbn [newtonLoop].
  destruct (Nat.ltb_spec count ITER_MAX); [| lia].
  rewrite Rltb_lt by exact Hf. reflexivity.
Qed.

Lemma newtonLoop_go (fuel : nat) (t : R) (count : nat) :
  (count < ITER_MAX)%nat ->
  TOLERANCE <= Rabs (objectiveFunction cum start p t) ->
  newtonLoop cum start p (S fuel) t count =
  newtonLoop cum start p fuel (newtonStep cum start p t) (S count).
Proof.
  intros Hc Hf. cbn [newtonLoop].
  destruct (Nat.ltb_spec count ITER_MAX); [| lia].
  rewrite Rltb_ge by exact Hf. reflexivity.
Qed.

(** A full Newton step: the slope is not flat and the step is at most 100. *)
Lemma newtonMove_full (t fValue : R) :
  1e-10 <= Rabs (calculateDerivative cum start p t) ->
  Rabs (t - fValue / calculateDerivative cum start p t - t) <= 100 ->
  newtonMove cum start p t fValue =
  t - fValue / calculateDerivative cum start p t.
Proof.
  intros Hd Hs. unfold newtonMove. cbv zeta.
  rewrite (Rltb_ge _ _ Hd), (Rltb_ge _ _ Hs). reflexivity.
Qed.

(** A damped step: the slope is not flat and the full step exceeds 100. *)
Lemma newtonMove_half (t fValue : R) :
  1e-10 <= Rabs (calculateDerivative cum start p t) ->
  100 < Rabs (t - fValue / calculateDerivative cum start p t - t) ->
  newtonMove cum start p t fValue =
  t - (0.5 * fValue) / calculateDerivative cum start p t.
Proof.
  intros Hd Hs. unfold newtonMove. cbv zeta.
  rewrite (Rltb_ge _ _ Hd), (Rltb_lt _ _ Hs). reflexivity.
Qed.

(** A flat slope: the temperature is nudged by 10. *)
Lemma newtonMove_flat (t fValue : R) :
  Rabs (calculateDerivative cum start p t) < 1e-10 ->
  newtonMove cum start p t fValue = t + (if 0 <? fValue then -10 else 10).
Proof.
  intros Hd. unfold newtonMove. cbv zeta.
  rewrite (Rltb_lt _ _ Hd). reflexivity.
Qed.

Lemma clamp_keep (t : R) : start <= t -> clamp start t = t.
Proof. intros H. unfold clamp. rewrite (Rltb_ge _ _ H). reflexivity. Qed.

Lemma clamp_low (t : R) : t < start -> clamp start t = start + 1.
Proof. intros H. unfold clamp. rewrite (Rltb_lt _ _ H). reflexivity. Qed.

End NewtonSteps.

(** ** A run with a small equilibrium constant *)

Section LowKe.

Variable p : ReactorParams.
Hypothesis Hk : 0 < baseK p <= 0.000001.
Hypothesis HdH : deltaH p = -20000.
Hypothesis Hhc : heatCapacity p = 50.

Local Abbreviation X t := (computeThermodynamicConversion t (baseK p) (deltaH p)).

(** The Newton step from 400 K with reference temperature 300 K and no
    prior conversion: the equilibrium curve is negligible there, the step
    follows the energy-balance line down to its foot and lands just above
    300 K. *)
Lemma lowKe_first_step :
  300 < newtonStep 0 300 p 400 < 300.016.
Proof.
  destruct Hk as [Hk0 Hk1].
  pose proof (line_X_small p Hk0 HdH 400 ltac:(lra)) as [HX0 _].
  pose proof (line_X_400 p Hk0 HdH) as HX400.
  pose proof (line_derivative_bounds 0 300 p Hk0 HdH Hhc 400 ltac:(lra)) as [Hd1 Hd2].
  pose proof (line_objective 0 300 p HdH Hhc 400) as Hf.
  set (d := calculateDerivative 0 300 p 400) in *.
  set (f0 := objectiveFunction 0 300 p 400) in *.
  set (X0 := X 400) in *.
  assert (HXs : X0 <= 0.000001 / 256) by (unfold Rdiv in *; lra).
  destruct (quotient_bounds f0 d 99.984 100) as [Hq1 Hq2]; [lra | lra | lra |].
  unfold newtonStep. fold f0.
  rewrite newtonMove_full; fold d.
  - rewrite clamp_keep; lra.
  - rewrite Rabs_left; lra.
  - replace (400 - f0 / d - 400) with (- (f0 / d)) by lra.
    rewrite Rabs_Ropp, Rabs_right; lra.
Qed.

(** From 300 K the first stage takes one full Newton step from 400 K and
    stops there, a little above 300 K. *)
Lemma lowKe_first_stage :
  eqTemp (solveForIntersection 300 0 300 p) = newtonStep 0 300 p 400 /\
  iterations (solveForIntersection 300 0 300 p) = 1%nat.
Proof.
  destruct Hk as [Hk0 Hk1].
  pose proof lowKe_first_step as [Ht1 Ht2].
  rewrite solveForIntersection_eqTemp, solveForIntersection_iterations.
  replace (300 + 100) with 400 by lra.
  change ITER_MAX with (S 49).
  rewrite newtonLoop_go.
  - rewrite newtonLoop_stop; [split; reflexivity | unfold ITER_MAX; lia |].
    rewrite (line_objective 0 300 p HdH Hhc).
    set (t1 := newtonStep 0 300 p 400) in *.
    pose proof (line_X_small p Hk0 HdH t1 ltac:(lra)) as [HX1 HX2].
    unfold TOLERANCE. apply Rabs_def1; lra.
  - unfold ITER_MAX. lia.
  - rewrite (line_objective 0 300 p HdH Hhc).
    pose proof (line_X_small p Hk0 HdH 400 ltac:(lra)) as [HX1 HX2].
    unfold TOLERANCE. rewrite Rabs_left; lra.
Qed.

Lemma lowKe_first_stage_temperature :
  300 < eqTemp (solveForIntersection 300 0 300 p) < 300.016.
Proof.
  destruct lowKe_first_stage as [-> _]. apply lowKe_first_step.
Qed.

End LowKe.

(** C1 as stated fails.  Called as [runCalculation] calls it for the first
    stage (initial and reference temperature 300 K, no prior conversion), with
    the default enthalpies and heat capacity and [baseK = 0.000001], the
    solver returns a temperature between 300 K and 300.016 K, below
    [300 + 1]: the clamp only acts on temperatures below the reference
    temperature itself.  And when the initial temperature is far below the
    reference temperature, the returned temperature can be below the reference
    temperature too: with initial temperature 0 and a flat objective the
    solver stops at once at 100 K. *)
Lemma solver_temperature_below_reference_plus_one :
  eqTemp (solveForIntersection 300 0 300 (mkParams 0.000001 (-20000) 50)) < 300 + 1 /\
  eqTemp (solveForIntersection 0 0 300 (mkParams 0 (-20000) 0)) < 300.
Proof.
  split.
  - pose proof (lowKe_first_stage_temperature (mkParams 0.000001 (-20000) 50))
      as H.
    cbn [baseK deltaH heatCapacity] in H.
    specialize (H ltac:(lra) eq_refl eq_refl). lra.
  - rewrite solveForIntersection_eqTemp.
    change ITER_MAX with (S 49).
    rewrite newtonLoop_stop.
    + cbn [fst]. lra.
    + unfold ITER_MAX. lia.
    + unfold objectiveFunction, computeEnergyBalanceConversion.
      cbn [baseK deltaH heatCapacity].
      rewrite thermo_baseK_0.
      replace (0 - (0 + 0 * (0 + 100 - 300) / Rabs (-20000))) with 0
        by (unfold Rdiv; ring).
      rewrite Rabs_R0. unfold TOLERANCE. lra.
Qed.

(** ** The stage sequence *)

Lemma chained_snoc (cooling : R) (params : ReactorParams)
    (front : list StageResult) (lastS : StageResult) :
  chained cooling params (front ++ [lastS]) ->
  chained cooling params
    ((front ++ [lastS]) ++
     [solveForIntersection cooling (conversion lastS) cooling params]).
Proof.
  intros Hch n prev next Hprev Hnext.
  assert (Hlen : length (front ++ [lastS]) = S (length front))
    by (rewrite length_app; cbn [length]; lia).
  destruct (Nat.lt_ge_cases (S n) (length (front ++ [lastS]))) as [Hlt | Hge].
  - rewrite nth_error_app1 in Hprev by lia.
    rewrite nth_error_app1 in Hnext by lia.
    exact (Hch n prev next Hprev Hnext).
  - assert (Hsome : nth_error
                      ((front ++ [lastS]) ++
                       [solveForIntersection cooling (conversion lastS) cooling params])
                      (S n) <> None) by (rewrite Hnext; discriminate).
    apply nth_error_Some in Hsome. rewrite length_app in Hsome.
    cbn [length] in Hsome.
    assert (Hn : n = length front) by lia. subst n.
    rewrite nth_error_app1 in Hprev by lia.
    rewrite nth_error_app2 in Hprev by lia.
    rewrite Nat.sub_diag in Hprev. cbn [nth_error] in Hprev.
    injection Hprev as <-.
    rewrite nth_error_app2 in Hnext by lia.
    replace (S (length front) - length (front ++ [lastS]))%nat with 0%nat
      in Hnext by lia.
    cbn [nth_error] in Hnext. injection Hnext as <-. reflexivity.
Qed.

(** The stages stored by a valid run: the first is the first stage, and the
    sequence is chained through the cooling temperature. *)
Lemma stages_of_valid_run (c : Component) :
  Ca (inputs c) = Cb (inputs c) ->
  nth_error (reactorStages (after c)) 0 = Some (firstStage (inputs c)) /\
  chained (coolingTemp (inputs c)) (derivedParams (inputs c))
    (reactorStages (after c)).
Proof.
  intros Heq.
  destruct (stagesRun_invariant (inputs c) c
              (fun rs tot _ _ =>
                 nth_error rs 0 = Some (firstStage (inputs c)) /\
                 chained (coolingTemp (inputs c)) (derivedParams (inputs c)) rs /\
                 exists front lastS,
                   rs = front ++ [lastS] /\ tot = conversion lastS))
    as (rs & tot & count & calls & Hrun & Hhead & Hch & _).
  - intros rs tot count calls (Hhead & Hch & front & lastS & -> & ->) _ _.
    split; [| split].
    + rewrite nth_error_app1; [exact Hhead |].
      rewrite length_app. cbn [length]. lia.
    + apply chained_snoc, Hch.
    + eexists _, _. split; reflexivity.
  - split; [reflexivity | split].
    + intros [| n] prev next Hprev Hnext; cbn [nth_error] in Hnext;
        [discriminate | destruct n; discriminate].
    + exists [], (firstStage (inputs c)). split; reflexivity.
  - destruct (after_valid c c rs tot calls Heq Hrun) as [-> _].
    cbn [reactorStages]. split; assumption.
Qed.

(** A solve from its own reference temperature that stopped before the cap
    ends, within the tolerance, at or above the conversion it started from:
    there the equilibrium curve meets the energy-balance line, which does not
    fall below the prior conversion at temperatures above the reference. *)
Lemma converged_stage_conversion (cum start : R) (p : ReactorParams) :
  0 <= heatCapacity p ->
  deltaH p <> 0 ->
  (iterations (solveForIntersection start cum start p) < ITER_MAX)%nat ->
  cum - TOLERANCE < conversion (solveForIntersection start cum start p).
Proof.
  intros Hhc HdH Hit.
  pose proof (solveForIntersection_converged start cum start p Hit) as Hconv.
  pose proof (solveForIntersection_ge start cum start p ltac:(left; lra)) as Hge.
  rewrite solveForIntersection_conversion.
  set (t := eqTemp (solveForIntersection start cum start p)) in *.
  unfold objectiveFunction, computeEnergyBalanceConversion in Hconv.
  assert (Heb : 0 <= heatCapacity p * (t - start) / Rabs (deltaH p)).
  { unfold Rdiv. apply Rmult_le_pos.
    - apply Rmult_le_pos; lra.
    - left. apply Rinv_0_lt_compat, Rabs_pos_lt, HdH. }
  apply Rabs_def2 in Hconv. lra.
Qed.

(** C3, as amended. In a run with equal, non-negative heat capacities and a
    non-zero enthalpy change, every stage after the first whose solve stopped
    before the iteration cap has a conversion above the previous stage's
    conversion minus the solver tolerance 0.0001.  (Nothing is promised for a
    stage that reached the cap.) *)
Theorem stage_conversions_within_tolerance (c : Component) :
  Ca (inputs c) = Cb (inputs c) ->
  0 <= Ca (inputs c) ->
  Hb (inputs c) <> Ha (inputs c) ->
  forall (n : nat) (prev next : StageResult),
    nth_error (reactorStages (after c)) n = Some prev ->
    nth_error (reactorStages (after c)) (S n) = Some next ->
    (iterations next < 50)%nat ->
    conversion prev - 0.0001 < conversion next.
Proof.
  intros Heq Hhc HdH n prev next Hprev Hnext Hit.
  destruct (stages_of_valid_run c Heq) as [_ Hch].
  rewrite (Hch n prev next Hprev Hnext) in Hit |- *.
  apply converged_stage_conversion; [exact Hhc | | exact Hit].
  cbn [derivedParams deltaH]. lra.
Qed.

(** When the first stage's conversion is below the target, a second stage is
    computed. *)
Lemma second_stage_of_valid_run (c : Component) :
  Ca (inputs c) = Cb (inputs c) ->
  conversion (firstStage (inputs c)) < targetConversion (inputs c) ->
  nth_error (reactorStages (after c)) 1 =
  Some (solveForIntersection (coolingTemp (inputs c))
          (conversion (firstStage (inputs c))) (coolingTemp (inputs c))
          (derivedParams (inputs c))).
Proof.
  intros Heq Hlow.
  set (i := inputs c) in *.
  set (next := solveForIntersection (coolingTemp i)
                 (conversion (firstStage i)) (coolingTemp i) (derivedParams i)).
  assert (Hkeep : forall rs (tot : R) (count : nat) (calls : list SolverCall),
             nth_error rs 1 = Some next -> forall x : StageResult,
             nth_error (rs ++ [x]) 1 = Some next).
  { intros rs _ _ _ H x. rewrite nth_error_app1; [exact H |].
    apply nth_error_Some. rewrite H. discriminate. }
  assert (Hrun : exists rs tot calls,
             stagesRun i c = (rs, tot, {| component := c; solverCalls := calls |}) /\
             nth_error rs 1 = Some next).
  { rewrite stagesRun_unfold.
    rewrite (stageLoop_fuel _ _ _ STAGE_LIMIT (S 4))
      by (unfold STAGE_LIMIT; lia).
    rewrite stageLoop_S. fold (firstStage i) in *.
    rewrite (Rltb_lt _ _ Hlow).
    change (1 <? STAGE_LIMIT)%nat with true. cbn [andb]. cbv zeta.
    cbn [component solverCalls]. fold next.
    destruct (0.99 <? conversion next).
    - eexists _, _, _. split; [reflexivity | reflexivity].
    - destruct (stageLoop_invariant (coolingTemp i) (targetConversion i)
                  (derivedParams i)
                  (fun rs _ _ _ => nth_error rs 1 = Some next)
                  ltac:(intros rs tot count calls H _ _; apply (Hkeep rs tot count calls H))
                  4%nat ([firstStage i] ++ [next]) (conversion next) 2%nat
                  {| component := c;
                     solverCalls :=
                       [mkCall (T0 i) 0 (T0 i) (derivedParams i)] ++
                       [mkCall (coolingTemp i) (conversion (firstStage i))
                          (coolingTemp i) (derivedParams i)] |}
                  eq_refl)
        as (rs & tot & _ & calls & Hrun & HP).
      exists rs, tot, calls. split; [exact Hrun | exact HP]. }
  destruct Hrun as (rs & tot & calls & Hrun & HP).
  destruct (after_valid c c rs tot calls Heq Hrun) as [-> _].
  cbn [reactorStages]. exact HP.
Qed.

(** With a flat energy-balance line and a small equilibrium constant the
    solver stops at its first guess, whatever small conversion came before. *)
Lemma flat_stage (cum start : R) (p : ReactorParams) :
  0 < baseK p <= 0.000001 -> deltaH p = -20000 -> heatCapacity p = 0 ->
  0 <= cum <= 0.000001 -> 298 <= start ->
  eqTemp (solveForIntersection start cum start p) = start + 100 /\
  iterations (solveForIntersection start cum start p) = 0%nat.
Proof.
  intros [Hk0 Hk1] HdH Hhc Hcum Hstart.
  rewrite solveForIntersection_eqTemp, solveForIntersection_iterations.
  change ITER_MAX with (S 49).
  rewrite newtonLoop_stop; [split; reflexivity | unfold ITER_MAX; lia |].
  unfold objectiveFunction, computeEnergyBalanceConversion.
  rewrite Hhc.
  pose proof (line_X_small p Hk0 HdH (start + 100) ltac:(lra)) as [HX0 HX1].
  replace (0 * (start + 100 - start) / Rabs (deltaH p)) with 0
    by (unfold Rdiv; ring).
  unfold TOLERANCE. apply Rabs_def1; lra.
Qed.

Lemma flat_params :
  0 < baseK (derivedParams flatInputs) <= 0.000001 /\
  deltaH (derivedParams flatInputs) = -20000 /\
  heatCapacity (derivedParams flatInputs) = 0.
Proof.
  cbn [derivedParams flatInputs baseK deltaH heatCapacity Ke Ha Hb Ca].
  repeat split; lra.
Qed.

Lemma flat_firstStage :
  firstStage flatInputs =
  solveForIntersection 300 0 300 (derivedParams flatInputs).
Proof. reflexivity. Qed.

Lemma flat_first_conversion :
  0 < conversion (firstStage flatInputs) < 0.000001.
Proof.
  destruct flat_params as ([Hk0 Hk1] & HdH & Hhc).
  rewrite flat_firstStage, solveForIntersection_conversion.
  destruct (flat_stage 0 300 (derivedParams flatInputs))
    as [-> _]; try assumption; try lra.
  apply (line_X_small _ Hk0 HdH). lra.
Qed.

Lemma stage_conversions_within_tolerance_witness :
  conversion (firstStage flatInputs) - 0.0001 <
  conversion (solveForIntersection 350 (conversion (firstStage flatInputs)) 350
                (derivedParams flatInputs)).
Proof.
  destruct flat_params as (Hk & HdH & Hhc).
  pose proof flat_first_conversion as Hc1.
  apply (stage_conversions_within_tolerance flatComponent
           eq_refl
           ltac:(cbn [flatComponent inputs flatInputs Ca]; lra)
           ltac:(cbn [flatComponent inputs flatInputs Ha Hb]; lra)
           0%nat).
  - apply (stages_of_valid_run flatComponent eq_refl).
  - apply (second_stage_of_valid_run flatComponent eq_refl).
    change (inputs flatComponent) with flatInputs.
    change (targetConversion flatInputs) with 0.8. lra.
  - destruct (flat_stage (conversion (firstStage flatInputs)) 350
                (derivedParams flatInputs)) as [_ ->];
      try assumption; try lra; lia.
Defined.

Lemma lowKe_params :
  0 < baseK (derivedParams lowKeInputs) <= 0.000001 /\
  deltaH (derivedParams lowKeInputs) = -20000 /\
  heatCapacity (derivedParams lowKeInputs) = 50.
Proof.
  cbn [derivedParams lowKeInputs baseK deltaH heatCapacity Ke Ha Hb Ca].
  repeat split; lra.
Qed.

Lemma lowKe_firstStage :
  firstStage lowKeInputs =
  solveForIntersection 300 0 300 (derivedParams lowKeInputs).
Proof. reflexivity. Qed.

(** C3 as stated fails.  With the default inputs and [Ke = 0.000001] the
    first stage ends just above 300 K; the second starts from the cooling
    temperature 350 K and cannot end below it, and for an exothermic reaction
    the equilibrium conversion is lower at the higher temperature: the second
    stage's conversion is strictly below the first stage's. *)
Lemma stage_conversions_can_decrease :
  exists s1 s2 : StageResult,
    nth_error (reactorStages (after lowKeComponent)) 0 = Some s1 /\
    nth_error (reactorStages (after lowKeComponent)) 1 = Some s2 /\
    conversion s2 < conversion s1.
Proof.
  destruct lowKe_params as (Hk & HdH & Hhc).
  pose proof (lowKe_first_stage_temperature _ Hk HdH Hhc) as Ht1.
  rewrite <- lowKe_firstStage in Ht1.
  assert (Hconv1 : 0 < conversion (firstStage lowKeInputs) < 0.000001).
  { rewrite lowKe_firstStage, solveForIntersection_conversion,
      <- lowKe_firstStage.
    pose proof (line_X_small _ (proj1 Hk) HdH
                  (eqTemp (firstStage lowKeInputs)) ltac:(lra)) as HX.
    lra. }
  pose proof (stages_of_valid_run lowKeComponent eq_refl) as [Hhead _].
  pose proof (second_stage_of_valid_run lowKeComponent eq_refl) as Hsecond.
  change (inputs lowKeComponent) with lowKeInputs in Hhead, Hsecond.
  change (targetConversion lowKeInputs) with 0.8 in Hsecond.
  change (coolingTemp lowKeInputs) with 350 in Hsecond.
  specialize (Hsecond ltac:(lra)).
  eexists _, _. split; [exact Hhead |]. split; [exact Hsecond |].
  pose proof (solveForIntersection_ge 350
                (conversion (firstStage lowKeInputs)) 350
                (derivedParams lowKeInputs) ltac:(left; lra)) as Ht2.
  assert (E1 : conversion (firstStage lowKeInputs) =
               computeThermodynamicConversion (eqTemp (firstStage lowKeInputs))
                 (baseK (derivedParams lowKeInputs))
                 (deltaH (derivedParams lowKeInputs)))
    by (rewrite lowKe_firstStage; apply solveForIntersection_conversion).
  set (s1 := firstStage lowKeInputs) in *.
  rewrite solveForIntersection_conversion.
  set (s2 := solveForIntersection 350 (conversion s1) 350
               (derivedParams lowKeInputs)) in *.
  rewrite E1.
  apply thermo_decreasing; lra.
Qed.

(** ** A stage that cannot reach its energy-balance line *)

Section Pinned.

Variable p : ReactorParams.
Hypothesis Hk : 0 < baseK p <= 0.000001.
Hypothesis HdH : deltaH p = -20000.
Hypothesis Hhc : heatCapacity p = 50.

(** With a prior conversion of 0.5, far above the equilibrium curve, the
    objective is negative everywhere above the reference temperature 350 K:
    every damped step falls below 350 K and is clamped to 351 K. *)
Lemma pinned_step (t : R) :
  350 <= t <= 450 ->
  TOLERANCE <= Rabs (objectiveFunction 0.5 350 p t) /\
  newtonStep 0.5 350 p t = 350 + 1.
Proof.
  intros Ht. destruct Hk as [Hk0 Hk1].
  pose proof (line_X_small p Hk0 HdH t ltac:(lra)) as [HX0 HX1].
  pose proof (line_derivative_bounds 0.5 350 p Hk0 HdH Hhc t ltac:(lra))
    as [Hd1 Hd2].
  pose proof (line_objective 0.5 350 p HdH Hhc t) as Hf.
  set (d := calculateDerivative 0.5 350 p t) in *.
  set (f0 := objectiveFunction 0.5 350 p t) in *.
  assert (Hq : f0 = f0 / d * d) by (field; lra).
  set (q := f0 / d) in *.
  assert (Hq0 : 0 < q) by (apply Rnot_le_lt; intros Hle; nra).
  assert (Hq1 : - f0 < 0.0026 * q) by nra.
  split.
  - unfold TOLERANCE. rewrite Rabs_left; lra.
  - unfold newtonStep. fold f0.
    rewrite newtonMove_half; fold d; fold q.
    + replace (0.5 * f0 / d) with (0.5 * q) by (subst q; field; lra).
      rewrite clamp_low; lra.
    + rewrite Rabs_left; lra.
    + replace (t - q - t) with (- q) by lra.
      rewrite Rabs_Ropp, Rabs_right; lra.
Qed.

Lemma pinned_loop (fuel count : nat) :
  (fuel + count = ITER_MAX)%nat ->
  newtonLoop 0.5 350 p fuel (350 + 1) count = (350 + 1, ITER_MAX).
Proof.
  revert count. induction fuel as [| fuel IH]; intros count Hsum.
  - cbn [newtonLoop]. cbn [Nat.add] in Hsum. rewrite Hsum. reflexivity.
  - destruct (pinned_step (350 + 1) ltac:(lra)) as [Hf Hs].
    rewrite newtonLoop_go; [| lia | exact Hf].
    rewrite Hs. apply IH. lia.
Qed.

Lemma pinned_stage :
  eqTemp (solveForIntersection 350 0.5 350 p) = 350 + 1 /\
  iterations (solveForIntersection 350 0.5 350 p) = ITER_MAX.
Proof.
  rewrite solveForIntersection_eqTemp, solveForIntersection_iterations.
  destruct (pinned_step (350 + 100) ltac:(lra)) as [Hf Hs].
  change ITER_MAX with (S 49) at 1 2.
  rewrite newtonLoop_go; [| unfold ITER_MAX; lia | exact Hf].
  rewrite Hs, pinned_loop by reflexivity.
  split; reflexivity.
Qed.

End Pinned.

(** C10. The conversion returned by the solver is the thermodynamic
    conversion at the returned temperature, for every call.  It need not lie
    on the energy-balance line: with the default enthalpies and heat
    capacity, [baseK = 0.000001], reference temperature 350 K and prior
    conversion 0.5, the solver spends all 50 iterations and returns a
    conversion different from the prior conversion plus the energy-balance
    conversion at the returned temperature. *)
Theorem solver_conversion_on_equilibrium_curve :
  (forall (initTemp cum start : R) (p : ReactorParams),
     conversion (solveForIntersection initTemp cum start p) =
     computeThermodynamicConversion
       (eqTemp (solveForIntersection initTemp cum start p))
       (baseK p) (deltaH p)) /\
  (exists (initTemp cum start : R) (p : ReactorParams),
     iterations (solveForIntersection initTemp cum start p) = 50%nat /\
     conversion (solveForIntersection initTemp cum start p) <>
     cum + computeEnergyBalanceConversion
             (eqTemp (solveForIntersection initTemp cum start p))
             start (heatCapacity p) (deltaH p)).
Proof.
  split; [exact solveForIntersection_conversion |].
  exists 350, 0.5, 350, (mkParams 0.000001 (-20000) 50).
  pose proof (pinned_stage (mkParams 0.000001 (-20000) 50)) as H.
  cbn [baseK deltaH heatCapacity] in H.
  destruct (H ltac:(lra) eq_refl eq_refl) as [Ht Hit].
  split; [exact Hit |].
  rewrite solveForIntersection_conversion, Ht.
  cbn [baseK deltaH heatCapacity].
  pose proof (line_X_small (mkParams 0.000001 (-20000) 50)) as HX.
  cbn [baseK deltaH heatCapacity] in HX.
  specialize (HX ltac:(lra) eq_refl (350 + 1) ltac:(lra)).
  unfold computeEnergyBalanceConversion.
  rewrite (Rabs_left (-20000)) by lra.
  replace (- -20000) with 20000 by lra.
  intros E. lra.
Qed.

(** ** The first evaluation of the objective *)

Lemma solveEvals_head (initTemp cum start : R) (p : ReactorParams) :
  hd_error (solveEvals initTemp cum start p) = Some (initTemp + 100).
Proof.
  unfold solveEvals. apply (newtonLoopEvals_head cum start p 49).
  unfold ITER_MAX. lia.
Qed.

(** The recorded evaluations are those of the call: three for each
    iteration counted in the result, and one more for the tolerance test
    that stopped the loop before the cap. *)
Lemma solveEvals_length (initTemp cum start : R) (p : ReactorParams) :
  length (solveEvals initTemp cum start p) =
  (3 * iterations (solveForIntersection initTemp cum start p) +
   (if (iterations (solveForIntersection initTemp cum start p) <? ITER_MAX)%nat
    then 1 else 0))%nat.
Proof.
  unfold solveEvals.
  rewrite (newtonLoopEvals_length cum start p ITER_MAX (initTemp + 100) 0)
    by lia.
  cbv zeta. rewrite <- solveForIntersection_iterations, Nat.sub_0_r.
  reflexivity.
Qed.

(** Every call that [runCalculation] makes passes the same temperature as
    initial and as reference temperature. *)
Lemma calls_same_temperature (c : Component) :
  Forall (fun call => call_initTemp call = call_startingTemp call) (callsOf c).
Proof.
  destruct (Req_dec (Ca (inputs c)) (Cb (inputs c))) as [Heq | Hne].
  - destruct (stagesRun_invariant (inputs c) c
                (fun _ _ _ calls =>
                   Forall (fun call => call_initTemp call = call_startingTemp call)
                     calls))
      as (rs & tot & count & calls & Hrun & Hall).
    + intros rs tot count calls Hall _ _.
      apply Forall_app. split; [exact Hall |].
      constructor; [reflexivity | constructor].
    + constructor; [reflexivity | constructor].
    + destruct (after_valid c c rs tot calls Heq Hrun) as [_ ->]. exact Hall.
  - unfold callsOf. rewrite (press_invalid c Hne). constructor.
Qed.

(** The evaluations recorded for a call are those of
    [solveForIntersection]: with [n] the iteration count it returns and
    [T k] the temperature it holds after [k] iterations, they are
    [T k], [T k + 0.01], [T k] for each [k < n], and then [T n] when
    [n < ITER_MAX]. *)
Lemma solveEvals_trace (initTemp cum start : R) (p : ReactorParams) :
  solveEvals initTemp cum start p =
  flat_map (fun k => [temperatureAfter initTemp cum start p k;
                      temperatureAfter initTemp cum start p k + 0.01;
                      temperatureAfter initTemp cum start p k])
    (seq 0 (iterations (solveForIntersection initTemp cum start p))) ++
  (if (iterations (solveForIntersection initTemp cum start p) <? ITER_MAX)%nat
   then [temperatureAfter initTemp cum start p
           (iterations (solveForIntersection initTemp cum start p))]
   else []).
Proof.
  unfold solveEvals.
  rewrite (newtonLoopEvals_trace cum start p ITER_MAX (initTemp + 100) 0)
    by lia.
  rewrite <- solveForIntersection_iterations, Nat.sub_0_r.
  reflexivity.
Qed.

(** The calls of a run with equal heat capacities start with the call for
    the first stage. *)
Lemma calls_start_with_first (c : Component) :
  Ca (inputs c) = Cb (inputs c) ->
  exists rest, callsOf c = firstCall (inputs c) :: rest.
Proof.
  intros Heq.
  destruct (stagesRun_invariant (inputs c) c
              (fun _ _ _ calls => exists rest, calls = firstCall (inputs c) :: rest))
    as (rs & tot & count & calls & Hrun & Hhead).
  - intros rs tot count calls [rest ->] _ _. eexists. reflexivity.
  - exists []. reflexivity.
  - destruct (after_valid c c rs tot calls Heq Hrun) as [_ ->]. exact Hhead.
Qed.

(** C7. In every invocation of the solver that the program makes, the first
    temperature at which the objective is evaluated is
    [stageReferenceTemp + 100].  Both call sites of [solveForIntersection]
    (lines 311 and 322-327) pass the reference temperature as initial
    temperature too, the solver starts from [initTemp + 100] (line 66), and
    the temperatures at which it evaluates its objective are those it holds
    between its iterations, beginning with that one.  [solveForIntersection]
    is local to the component, so these are all its invocations; a run with
    equal heat capacities makes at least one. *)
Theorem solver_first_evaluation (c : Component) :
  Forall (fun call =>
            call_initTemp call = call_startingTemp call /\
            temperatureAfter (call_initTemp call)
              (call_cumulativeConversion call) (call_startingTemp call)
              (call_reactorParams call) 0 = call_startingTemp call + 100 /\
            hd_error (solveEvals (call_initTemp call)
                        (call_cumulativeConversion call)
                        (call_startingTemp call) (call_reactorParams call)) =
            Some (call_startingTemp call + 100) /\
            solveEvals (call_initTemp call) (call_cumulativeConversion call)
              (call_startingTemp call) (call_reactorParams call) =
            flat_map (fun k =>
                        [temperatureAfter (call_initTemp call)
                           (call_cumulativeConversion call)
                           (call_startingTemp call) (call_reactorParams call) k;
                         temperatureAfter (call_initTemp call)
                           (call_cumulativeConversion call)
                           (call_startingTemp call) (call_reactorParams call) k
                         + 0.01;
                         temperatureAfter (call_initTemp call)
                           (call_cumulativeConversion call)
                           (call_startingTemp call) (call_reactorParams call) k])
              (seq 0 (iterations
                        (solveForIntersection (call_initTemp call)
                           (call_cumulativeConversion call)
                           (call_startingTemp call) (call_reactorParams call)))) ++
            (if (iterations
                   (solveForIntersection (call_initTemp call)
                      (call_cumulativeConversion call)
                      (call_startingTemp call) (call_reactorParams call))
                 <? ITER_MAX)%nat
             then [eqTemp
                     (solveForIntersection (call_initTemp call)
                        (call_cumulativeConversion call)
                        (call_startingTemp call) (call_reactorParams call))]
             else []))
    (callsOf c) /\
  (Ca (inputs c) = Cb (inputs c) ->
   exists rest, callsOf c = firstCall (inputs c) :: rest).
Proof.
  split; [| apply calls_start_with_first].
  eapply Forall_impl; [| apply calls_same_temperature].
  intros [i cum start p] Hsame.
  cbn [call_initTemp call_cumulativeConversion call_startingTemp
       call_reactorParams] in *.
  subst i.
  split; [reflexivity |]. split; [reflexivity |].
  split; [apply solveEvals_head |].
  rewrite solveEvals_trace.
  destruct (solveForIntersection_spec start cum start p) as (n & Ht & Hn & _).
  rewrite Ht, Hn. reflexivity.
Qed.

(** * Further properties of the equilibrium model and the solver *)

Lemma expTerm_increasing (t1 t2 dH : R) :
  0 < dH -> 0 < t1 -> t1 < t2 -> expTerm t1 dH < expTerm t2 dH.
Proof.
  intros HdH Ht1 Ht12. unfold expTerm.
  assert (Hinv : / t2 < / t1).
  { apply Rinv_lt_contravar; [apply Rmult_lt_0_compat; lra | lra]. }
  assert (Hq : 0 < dH / R_VALUE).
  { unfold Rdiv. apply Rmult_lt_0_compat; [lra |].
    apply Rinv_0_lt_compat, R_VALUE_pos. }
  unfold Rdiv at 2 3 4 5. rewrite !Rmult_1_l.
  nra.
Qed.

(** With an enthalpy change of 4000 the equilibrium constant at 400 K is
    between [baseK] and nine times [baseK]. *)
Lemma computeK_400_mild : 100000 <= computeK 400 100000 4000 <= 900000.
Proof.
  rewrite computeK_expTerm.
  assert (Hx : 0 <= expTerm 400 4000 <= 2) by (unfold expTerm, R_VALUE; lra).
  pose proof (exp_ineq1_le (expTerm 400 4000)) as Hlow.
  assert (Hup : exp (expTerm 400 4000) <= exp 2).
  { destruct Hx as [_ [Hlt | ->]]; [| lra].
    left. apply exp_increasing, Hlt. }
  assert (H2 : exp 2 <= 9).
  { replace 2 with (1 + 1) by lra. rewrite exp_plus.
    pose proof exp_le_3. pose proof (exp_pos 1). nra. }
  lra.
Qed.

(** X3. For an endothermic reaction ([deltaH > 0]) the equilibrium constant
    and the thermodynamic conversion rise with the temperature: both are
    strictly larger at the higher temperature [t2] as soon as the exponent of
    [computeK] has risen by at least 1.  This is stated where the equilibrium
    constant is of moderate size (temperatures of at least 1 K, an enthalpy
    change of at most 1e9, [baseK] and the equilibrium constant at [t2]
    between 1e-12 and 1e12).  With [deltaH = 0] the conversion is
    [baseK / (1 + baseK)]. *)
Theorem endothermic_conversion_increasing (t1 t2 k0 dH : R) :
  1 <= t1 -> t1 < t2 -> Rabs dH <= 1e9 -> 1e-12 <= k0 <= 1e12 ->
  1e-12 <= computeK t2 k0 dH <= 1e12 ->
  (0 < dH -> expTerm t1 dH + 1 <= expTerm t2 dH ->
   computeK t1 k0 dH < computeK t2 k0 dH /\
   computeThermodynamicConversion t1 k0 dH <
   computeThermodynamicConversion t2 k0 dH) /\
  computeThermodynamicConversion t1 k0 0 = k0 / (1 + k0).
Proof.
  intros Ht1 Ht12 _ [Hk0 _] _.
  assert (Hk : 0 < k0) by lra.
  split.
  - intros HdH _.
    assert (HK : computeK t1 k0 dH < computeK t2 k0 dH).
    { rewrite !computeK_expTerm. apply Rmult_lt_compat_l; [exact Hk |].
      apply exp_increasing, expTerm_increasing; lra. }
    split; [exact HK |].
    unfold computeThermodynamicConversion. cbv zeta.
    apply ratio_increasing; [apply computeK_pos, Hk | exact HK].
  - unfold computeThermodynamicConversion, computeK. cbv zeta.
    replace (0 / R_VALUE * (1 / 298 - 1 / t1)) with 0
      by (unfold Rdiv; ring).
    rewrite exp_0, Rmult_1_r. reflexivity.
Qed.

Lemma endothermic_conversion_increasing_witness :
  expTerm 300 4000 + 1 <= expTerm 400 4000 /\
  computeK 300 100000 4000 < computeK 400 100000 4000 /\
  computeThermodynamicConversion 300 100000 4000 <
  computeThermodynamicConversion 400 100000 4000 /\
  computeThermodynamicConversion 300 100000 0 = 100000 / (1 + 100000).
Proof.
  assert (Hsep : expTerm 300 4000 + 1 <= expTerm 400 4000)
    by (unfold expTerm, R_VALUE; lra).
  destruct (endothermic_conversion_increasing 300 400 100000 4000)
    as [Hrise Hflat].
  - lra.
  - lra.
  - rewrite Rabs_right; lra.
  - lra.
  - pose proof computeK_400_mild. lra.
  - destruct (Hrise ltac:(lra) Hsep) as [HK HX].
    repeat split; assumption.
Defined.

(** X4. The energy-balance line, for a positive heat capacity and a
    non-zero enthalpy change: it is zero exactly at the reference
    temperature, strictly increasing in the temperature, and the same for
    [deltaH] and [- deltaH]. *)
Theorem energyBalance_line (t t' s hc dH : R) :
  0 < hc -> dH <> 0 ->
  (computeEnergyBalanceConversion t s hc dH = 0 <-> t = s) /\
  (t < t' ->
   computeEnergyBalanceConversion t s hc dH <
   computeEnergyBalanceConversion t' s hc dH) /\
  computeEnergyBalanceConversion t s hc (- dH) =
  computeEnergyBalanceConversion t s hc dH.
Proof.
  intros Hhc HdH.
  assert (Habs : 0 < / Rabs dH) by apply Rinv_0_lt_compat, Rabs_pos_lt, HdH.
  unfold computeEnergyBalanceConversion, Rdiv.
  split; [| split].
  - split.
    + intros H0. apply Rmult_integral in H0. destruct H0 as [H0 | H0]; [| lra].
      apply Rmult_integral in H0. destruct H0 as [H0 | H0]; lra.
    + intros ->. ring.
  - intros Hlt. apply Rmult_lt_compat_r; [exact Habs | nra].
  - rewrite Rabs_Ropp. reflexivity.
Qed.

Lemma energyBalance_line_witness :
  (computeEnergyBalanceConversion 400 300 50 (-20000) = 0 <-> 400 = 300) /\
  (400 < 500 ->
   computeEnergyBalanceConversion 400 300 50 (-20000) <
   computeEnergyBalanceConversion 500 300 50 (-20000)) /\
  computeEnergyBalanceConversion 400 300 50 (- -20000) =
  computeEnergyBalanceConversion 400 300 50 (-20000).
Proof.
  apply (energyBalance_line 400 500 300 50 (-20000)); lra.
Defined.

(** X5. The clamp of the solver never lowers a temperature, returns either
    its argument or [startingTemp + 1], and clamping twice is clamping
    once.  It is not monotone: a temperature just below the reference is
    raised above one just above it. *)
Theorem clamp_shape (start t : R) :
  t <= clamp start t /\
  (clamp start t = t \/ clamp start t = start + 1) /\
  clamp start (clamp start t) = clamp start t /\
  clamp start start < clamp start (start - 1).
Proof.
  assert (Hcases : (t < start /\ clamp start t = start + 1) \/
                   (start <= t /\ clamp start t = t)).
  { destruct (Rlt_le_dec t start) as [H | H].
    - left. split; [exact H | apply clamp_low, H].
    - right. split; [exact H | apply clamp_keep, H]. }
  split; [| split; [| split]].
  - destruct Hcases as [[H ->] | [H ->]]; lra.
  - destruct Hcases as [[H ->] | [H ->]]; [right | left]; reflexivity.
  - destruct Hcases as [[H ->] | [H ->]].
    + apply clamp_keep. lra.
    + apply clamp_keep, H.
  - rewrite (clamp_keep start start) by lra.
    rewrite (clamp_low start (start - 1)) by lra. lra.
Qed.

(** * Further properties of the multi-stage run *)

Section StageLoopExit.

Variables (cooling target : R) (params : ReactorParams).

Local Abbreviation nextStage total :=
  (solveForIntersection cooling total cooling params).
Local Abbreviation nextCall total := (mkCall cooling total cooling params).

(** The loop rule with its exit conditions: [Inv] holds at the head of every
    iteration, [Post] when the loop is left, by its test or by the break. *)
Lemma stageLoop_rule
    (Inv Post : list StageResult -> R -> nat -> list SolverCall -> Prop) :
  (forall rs tot count calls,
     Inv rs tot count calls ->
     target <= tot \/ (STAGE_LIMIT <= count)%nat ->
     Post rs tot count calls) ->
  (forall rs tot count calls,
     Inv rs tot count calls -> tot < target -> (count < STAGE_LIMIT)%nat ->
     0.99 < conversion (nextStage tot) ->
     Post (rs ++ [nextStage tot]) (conversion (nextStage tot)) (S count)
       (calls ++ [nextCall tot])) ->
  (forall rs tot count calls,
     Inv rs tot count calls -> tot < target -> (count < STAGE_LIMIT)%nat ->
     conversion (nextStage tot) <= 0.99 ->
     Inv (rs ++ [nextStage tot]) (conversion (nextStage tot)) (S count)
       (calls ++ [nextCall tot])) ->
  forall fuel rs tot count w,
    (STAGE_LIMIT - count <= fuel)%nat ->
    Inv rs tot count (solverCalls w) ->
    exists rs' tot' count' calls',
      stageLoop cooling target params fuel rs tot count w =
        (rs', tot', {| component := component w; solverCalls := calls' |}) /\
      Post rs' tot' count' calls'.
Proof.
  intros Hexit Hbreak Hcont.
  induction fuel as [| fuel IH]; intros rs tot count w Hfuel HI.
  - exists rs, tot, count, (solverCalls w). split.
    + destruct w; reflexivity.
    + apply Hexit; [exact HI | right; lia].
  - rewrite stageLoop_S.
    destruct (tot <? target) eqn:Htot; cbn [andb].
    + apply Rltb_true in Htot.
      destruct (Nat.ltb_spec count STAGE_LIMIT) as [Hlt | Hge].
      * cbv zeta.
        destruct (0.99 <? conversion (nextStage tot)) eqn:Hbig.
        -- apply Rltb_true in Hbig.
           do 4 eexists. split; [reflexivity |].
           exact (Hbreak rs tot count (solverCalls w) HI Htot Hlt Hbig).
        -- apply Rltb_false in Hbig.
           apply (IH (rs ++ [nextStage tot]) (conversion (nextStage tot))
                    (S count)
                    {| component := component w;
                       solverCalls := solverCalls w ++ [nextCall tot] |});
             [lia |].
           exact (Hcont rs tot count (solverCalls w) HI Htot Hlt Hbig).
      * exists rs, tot, count, (solverCalls w). split.
        -- destruct w; reflexivity.
        -- apply Hexit; [exact HI | right; exact Hge].
    + apply Rltb_false in Htot.
      exists rs, tot, count, (solverCalls w). split.
      * destruct w; reflexivity.
      * apply Hexit; [exact HI | left; exact Htot].
Qed.

End StageLoopExit.

Lemma continuedAfter_snoc (target : R) (front : list StageResult)
    (lastS next : StageResult) :
  continuedAfter target (front ++ [lastS]) ->
  conversion lastS < target ->
  ((2 <= length (front ++ [lastS]))%nat -> conversion lastS <= 0.99) ->
  continuedAfter target ((front ++ [lastS]) ++ [next]).
Proof.
  intros Hold Hlast Hcap n s Hn Hlen.
  rewrite !length_app in *. cbn [length] in *.
  destruct (Nat.lt_ge_cases (S n) (length front + 1)) as [Hlt | Hge].
  - rewrite nth_error_app1 in Hn by (rewrite length_app; cbn [length]; lia).
    apply (Hold n s Hn). rewrite length_app. cbn [length]. lia.
  - assert (n = length front) by lia. subst n.
    rewrite nth_error_app1 in Hn by (rewrite length_app; cbn [length]; lia).
    rewrite nth_error_app2 in Hn by lia.
    rewrite Nat.sub_diag in Hn. cbn [nth_error] in Hn. injection Hn as <-.
    split; [exact Hlast |]. intros H1. apply Hcap. lia.
Qed.

(** The shape of a valid run: how the loop ended, and what held while it
    went on. *)
Lemma valid_run_shape (c : Component) :
  Ca (inputs c) = Cb (inputs c) ->
  exists (front : list StageResult) (lastS : StageResult),
    after c =
      {| inputs := inputs c;
         results := Some (calculationResult (inputs c) (front ++ [lastS])
                            (conversion lastS));
         reactorStages := front ++ [lastS];
         error := None |} /\
    (length (front ++ [lastS]) <= STAGE_LIMIT)%nat /\
    (targetConversion (inputs c) <= conversion lastS \/
     length (front ++ [lastS]) = STAGE_LIMIT \/
     0.99 < conversion lastS) /\
    continuedAfter (targetConversion (inputs c)) (front ++ [lastS]).
Proof.
  intros Heq.
  set (i := inputs c).
  set (shape := fun (rs : list StageResult) (tot : R) (count : nat) =>
         length rs = count /\ (count <= STAGE_LIMIT)%nat /\
         continuedAfter (targetConversion i) rs /\
         exists front lastS, rs = front ++ [lastS] /\ tot = conversion lastS).
  destruct (stageLoop_rule (coolingTemp i) (targetConversion i) (derivedParams i)
              (fun rs tot count _ =>
                 shape rs tot count /\ ((2 <= count)%nat -> tot <= 0.99))
              (fun rs tot count _ =>
                 shape rs tot count /\
                 (targetConversion i <= tot \/ count = STAGE_LIMIT \/ 0.99 < tot)))
    with (fuel := STAGE_LIMIT) (rs := [firstStage i])
         (tot := conversion (firstStage i)) (count := 1%nat)
         (w := {| component := c; solverCalls := [firstCall i] |})
    as (rs & tot & count & calls & Hrun & Hshape & Hexit).
  - intros rs tot count calls [Hs _] Hex. split; [exact Hs |].
    destruct Hs as (_ & Hle & _). destruct Hex as [H | H]; [left; exact H |].
    right; left; lia.
  - intros rs tot count calls [(Hlen & Hle & Hbelow & front & lastS & -> & ->) Hcap]
      Htot Hlt Hbig.
    split; [| right; right; exact Hbig].
    split; [rewrite length_app; cbn [length]; lia |].
    split; [lia |]. split.
    + apply continuedAfter_snoc; try assumption. rewrite Hlen. exact Hcap.
    + eexists _, _. split; reflexivity.
  - intros rs tot count calls [(Hlen & Hle & Hbelow & front & lastS & -> & ->) Hcap]
      Htot Hlt Hsmall.
    split; [| intros _; exact Hsmall].
    split; [rewrite length_app; cbn [length]; lia |].
    split; [lia |]. split.
    + apply continuedAfter_snoc; try assumption. rewrite Hlen. exact Hcap.
    + eexists _, _. split; reflexivity.
  - unfold STAGE_LIMIT. lia.
  - cbn [solverCalls]. split; [| intros H; lia].
    split; [reflexivity |]. split; [unfold STAGE_LIMIT; lia |]. split.
    + intros n s Hn Hlen. cbn [length] in Hlen. lia.
    + exists [], (firstStage i). split; reflexivity.
  - destruct Hshape as (Hlen & Hle & Hbelow & front & lastS & -> & ->).
    cbn [component] in Hrun. rewrite <- stagesRun_unfold in Hrun.
    destruct (after_valid c c _ _ calls Heq Hrun) as [Hafter _].
    exists front, lastS. split; [exact Hafter |].
    split; [lia |]. split; [| exact Hbelow].
    destruct Hexit as [H | [H | H]]; [left; exact H | right; left; lia |
                                       right; right; exact H].
Qed.

(** X6. The result of a valid run summarises its stage sequence: the
    error is cleared and the inputs are kept; the three first-reactor fields
    are those of the first stage of [stages]; [finalConversion] is the
    conversion of the last stage; and [targetReached] says whether that
    conversion is at least the target. *)
Theorem result_summarises_stages (c : Component) :
  Ca (inputs c) = Cb (inputs c) ->
  exists r : Results.t,
    results (after c) = Some r /\
    error (after c) = None /\
    inputs (after c) = inputs c /\
    nth_error (Results.stages r) 0 =
      Some {| eqTemp := Results.adiabaticEqTemp r;
              conversion := Results.eqConversion r;
              iterations := Results.iterations r |} /\
    (exists front lastS,
       Results.stages r = front ++ [lastS] /\
       Results.finalConversion r = conversion lastS) /\
    (Results.targetReached r = true <->
     targetConversion (inputs c) <= Results.finalConversion r).
Proof.
  intros Heq.
  destruct (valid_run_shape c Heq) as (front & lastS & Hafter & _).
  pose proof (stages_of_valid_run c Heq) as [Hhead _].
  rewrite Hafter in Hhead |- *. cbn [results error inputs reactorStages] in *.
  eexists. split; [reflexivity |].
  unfold calculationResult.
  cbn [Results.stages Results.adiabaticEqTemp Results.eqConversion
       Results.iterations Results.finalConversion Results.targetReached].
  split; [reflexivity |]. split; [reflexivity |]. split.
  - rewrite Hhead. destruct (firstStage (inputs c)). reflexivity.
  - split; [exists front, lastS; split; reflexivity |].
    apply Rleb_true.
Qed.

Lemma result_summarises_stages_witness :
  exists r : Results.t,
    results (after initialComponent) = Some r /\
    error (after initialComponent) = None /\
    inputs (after initialComponent) = inputs initialComponent /\
    nth_error (Results.stages r) 0 =
      Some {| eqTemp := Results.adiabaticEqTemp r;
              conversion := Results.eqConversion r;
              iterations := Results.iterations r |} /\
    (exists front lastS,
       Results.stages r = front ++ [lastS] /\
       Results.finalConversion r = conversion lastS) /\
    (Results.targetReached r = true <->
     targetConversion (inputs initialComponent) <= Results.finalConversion r).
Proof.
  apply (result_summarises_stages initialComponent). reflexivity.
Defined.

Lemma regularInputs_default : regularInputs (inputs initialComponent).
Proof.
  unfold regularInputs.
  cbn [initialComponent inputs defaultInputs Ha Hb Ke T0 coolingTemp].
  repeat split; lra.
Qed.

(** X7. A run with equal heat capacities stops for a reason and not
    before.  When it ends, the loop test [totalConversion < targetConversion]
    is false of the final conversion, or five stages were computed, or the
    final conversion is above 0.99; and after every stage but the last the
    loop test held, and, from the second stage on, the test
    [totalConversion > 0.99] of the [break] did not. *)
Theorem run_stops_for_a_reason (c : Component) :
  Ca (inputs c) = Cb (inputs c) -> regularInputs (inputs c) ->
  exists r : Results.t,
    results (after c) = Some r /\
    (~ Results.finalConversion r < targetConversion (inputs c) \/
     length (Results.stages r) = 5%nat \/
     0.99 < Results.finalConversion r) /\
    (forall (n : nat) (s : StageResult),
       nth_error (Results.stages r) n = Some s ->
       (S n < length (Results.stages r))%nat ->
       conversion s < targetConversion (inputs c) /\
       ((1 <= n)%nat -> ~ 0.99 < conversion s)).
Proof.
  intros Heq _.
  destruct (valid_run_shape c Heq) as (front & lastS & Hafter & _ & Hexit & Hbelow).
  rewrite Hafter. cbn [results].
  eexists. split; [reflexivity |].
  unfold calculationResult. cbn [Results.stages Results.finalConversion].
  split.
  - destruct Hexit as [H | [H | H]];
      [left; lra | right; left; exact H | right; right; exact H].
  - intros n s Hn Hlen. destruct (Hbelow n s Hn Hlen) as [Hlow Hcap].
    split; [exact Hlow |]. intros Hn1. specialize (Hcap Hn1). lra.
Qed.

Lemma run_stops_for_a_reason_witness :
  exists r : Results.t,
    results (after initialComponent) = Some r /\
    (~ Results.finalConversion r < targetConversion (inputs initialComponent) \/
     length (Results.stages r) = 5%nat \/
     0.99 < Results.finalConversion r) /\
    (forall (n : nat) (s : StageResult),
       nth_error (Results.stages r) n = Some s ->
       (S n < length (Results.stages r))%nat ->
       conversion s < targetConversion (inputs initialComponent) /\
       ((1 <= n)%nat -> ~ 0.99 < conversion s)).
Proof.
  apply (run_stops_for_a_reason initialComponent).
  - reflexivity.
  - apply regularInputs_default.
Defined.

(** Every stage of a valid run lies on the equilibrium curve of the run's
    coefficients. *)
Lemma stages_on_curve (c : Component) :
  Ca (inputs c) = Cb (inputs c) ->
  Forall (fun s =>
            conversion s =
            computeThermodynamicConversion (eqTemp s) (Ke (inputs c))
              (Hb (inputs c) - Ha (inputs c)))
    (reactorStages (after c)).
Proof.
  intros Heq.
  destruct (stagesRun_invariant (inputs c) c
              (fun rs _ _ _ =>
                 Forall (fun s =>
                           conversion s =
                           computeThermodynamicConversion (eqTemp s)
                             (Ke (inputs c)) (Hb (inputs c) - Ha (inputs c)))
                   rs))
    as (rs & tot & count & calls & Hrun & Hall).
  - intros rs tot count calls Hall _ _. apply Forall_app. split; [exact Hall |].
    constructor; [| constructor].
    apply solveForIntersection_conversion.
  - constructor; [| constructor].
    unfold firstStage. apply solveForIntersection_conversion.
  - destruct (after_valid c c rs tot calls Heq Hrun) as [-> _]. exact Hall.
Qed.

(** With a non-negative [baseK] the thermodynamic conversion is at least 0
    and below 1. *)
Lemma thermo_range (t k0 dH : R) :
  0 <= k0 -> 0 <= computeThermodynamicConversion t k0 dH < 1.
Proof.
  intros [Hk | <-].
  - pose proof (thermo_unit t k0 dH Hk). lra.
  - rewrite thermo_baseK_0. lra.
Qed.

(** X8. In a run with equal heat capacities and a non-negative equilibrium
    constant no stage's conversion, and so not the final conversion either,
    is below 0 or above 1. *)
Theorem stage_conversions_in_unit_interval (c : Component) :
  Ca (inputs c) = Cb (inputs c) -> regularInputs (inputs c) ->
  exists r : Results.t,
    results (after c) = Some r /\
    Forall (fun s => ~ conversion s < 0 /\ ~ 1 < conversion s)
      (Results.stages r) /\
    ~ Results.finalConversion r < 0 /\ ~ 1 < Results.finalConversion r.
Proof.
  intros Heq (_ & Hk & _).
  destruct (valid_run_shape c Heq) as (front & lastS & Hafter & _).
  pose proof (stages_on_curve c Heq) as Hcurve.
  rewrite Hafter in Hcurve |- *. cbn [results reactorStages] in *.
  eexists. split; [reflexivity |].
  unfold calculationResult. cbn [Results.stages Results.finalConversion].
  assert (Hall : Forall (fun s => ~ conversion s < 0 /\ ~ 1 < conversion s)
                   (front ++ [lastS])).
  { eapply Forall_impl; [| exact Hcurve].
    intros s Hs. cbv beta in Hs. rewrite Hs.
    pose proof (thermo_range (eqTemp s) (Ke (inputs c))
                  (Hb (inputs c) - Ha (inputs c)) Hk).
    split; lra. }
  split; [exact Hall |].
  apply Forall_app in Hall. destruct Hall as [_ Hlast].
  inversion Hlast. assumption.
Qed.

Lemma stage_conversions_in_unit_interval_witness :
  exists r : Results.t,
    results (after initialComponent) = Some r /\
    Forall (fun s => ~ conversion s < 0 /\ ~ 1 < conversion s)
      (Results.stages r) /\
    ~ Results.finalConversion r < 0 /\ ~ 1 < Results.finalConversion r.
Proof.
  apply (stage_conversions_in_unit_interval initialComponent).
  - reflexivity.
  - apply regularInputs_default.
Defined.

Lemma Rleb_false (x y : R) : (x <=? y) = false <-> y < x.
Proof.
  unfold Rleb. destruct (Rle_dec x y); split; intros; try easy;
    try discriminate; lra.
Qed.

(** The last stage of a valid run with a non-negative equilibrium constant
    has a conversion of at least 0 and below 1. *)
Lemma stage_conversions_in_unit_interval_aux (c : Component) :
  Ca (inputs c) = Cb (inputs c) -> 0 <= Ke (inputs c) ->
  exists (front : list StageResult) (lastS : StageResult),
    after c =
      {| inputs := inputs c;
         results := Some (calculationResult (inputs c) (front ++ [lastS])
                            (conversion lastS));
         reactorStages := front ++ [lastS];
         error := None |} /\
    (targetConversion (inputs c) <= conversion lastS \/
     length (front ++ [lastS]) = 5%nat \/
     0.99 < conversion lastS) /\
    0 <= conversion lastS < 1.
Proof.
  intros Heq Hk.
  destruct (valid_run_shape c Heq) as (front & lastS & Hafter & _ & Hexit & _).
  pose proof (stages_on_curve c Heq) as Hcurve.
  rewrite Hafter in Hcurve. cbn [reactorStages] in Hcurve.
  exists front, lastS. split; [exact Hafter |]. split; [exact Hexit |].
  apply Forall_app in Hcurve. destruct Hcurve as [_ Hlast].
  inversion Hlast as [| s l Hs _]. subst. rewrite Hs. apply thermo_range, Hk.
Qed.

(** X9. With a non-negative equilibrium constant a target conversion above
    1 is never reached: [targetReached] is false, and a run that ends with a
    conversion of at most 0.99 has computed all five stages. *)
Theorem full_conversion_is_never_reached (c : Component) :
  Ca (inputs c) = Cb (inputs c) -> regularInputs (inputs c) ->
  1 < targetConversion (inputs c) ->
  exists r : Results.t,
    results (after c) = Some r /\
    Results.targetReached r = false /\
    (Results.finalConversion r <= 0.99 -> length (Results.stages r) = 5%nat).
Proof.
  intros Heq (_ & Hk & _) Htarget.
  destruct (stage_conversions_in_unit_interval_aux c Heq Hk)
    as (front & lastS & Hafter & Hexit & Hlast).
  rewrite Hafter. cbn [results].
  eexists. split; [reflexivity |].
  unfold calculationResult.
  cbn [Results.stages Results.finalConversion Results.targetReached].
  split; [apply Rleb_false; lra |].
  intros Hlow. destruct Hexit as [H | [H | H]]; [lra | exact H | lra].
Qed.

Lemma full_conversion_is_never_reached_witness :
  let c := {| inputs := mkInputs (-40000) (-60000) 50 50 40 100000 300 300 350 1.5;
              results := None; reactorStages := []; error := None |} in
  exists r : Results.t,
    results (after c) = Some r /\
    Results.targetReached r = false /\
    (Results.finalConversion r <= 0.99 -> length (Results.stages r) = 5%nat).
Proof.
  intros c. apply (full_conversion_is_never_reached c).
  - reflexivity.
  - unfold regularInputs. cbn [c inputs Ha Hb Ke T0 coolingTemp].
    repeat split; lra.
  - cbn [c inputs targetConversion]. lra.
Defined.

(** X10. When the first stage already has a conversion of at least the
    target, the run has exactly that one stage, made exactly one solver call,
    and reports the target as reached. *)
Theorem first_stage_suffices (c : Component) :
  Ca (inputs c) = Cb (inputs c) ->
  targetConversion (inputs c) <= conversion (firstStage (inputs c)) ->
  reactorStages (after c) = [firstStage (inputs c)] /\
  callsOf c = [firstCall (inputs c)] /\
  exists r : Results.t,
    results (after c) = Some r /\
    Results.stages r = [firstStage (inputs c)] /\
    Results.finalConversion r = conversion (firstStage (inputs c)) /\
    Results.targetReached r = true.
Proof.
  intros Heq Hmet.
  assert (Hrun : stagesRun (inputs c) c =
                 ([firstStage (inputs c)], conversion (firstStage (inputs c)),
                  {| component := c; solverCalls := [firstCall (inputs c)] |})).
  { rewrite stagesRun_unfold.
    rewrite (stageLoop_fuel _ _ _ STAGE_LIMIT (S 4))
      by (unfold STAGE_LIMIT; lia).
    rewrite stageLoop_S. fold (firstStage (inputs c)).
    rewrite (Rltb_ge _ _ Hmet). cbn [andb]. reflexivity. }
  destruct (after_valid c c _ _ _ Heq Hrun) as [-> ->].
  cbn [reactorStages results].
  split; [reflexivity |]. split; [reflexivity |].
  eexists. split; [reflexivity |].
  unfold calculationResult.
  cbn [Results.stages Results.finalConversion Results.targetReached].
  split; [reflexivity |]. split; [reflexivity |].
  apply Rleb_true, Hmet.
Qed.

Lemma first_stage_suffices_witness :
  let c := {| inputs := mkInputs (-40000) (-60000) 50 50 40 100000 300 300 350 0;
              results := None; reactorStages := []; error := None |} in
  reactorStages (after c) = [firstStage (inputs c)] /\
  callsOf c = [firstCall (inputs c)] /\
  exists r : Results.t,
    results (after c) = Some r /\
    Results.stages r = [firstStage (inputs c)] /\
    Results.finalConversion r = conversion (firstStage (inputs c)) /\
    Results.targetReached r = true.
Proof.
  intros c. apply (first_stage_suffices c).
  - reflexivity.
  - unfold firstStage. rewrite solveForIntersection_conversion.
    cbn [c inputs targetConversion derivedParams baseK Ke].
    left. apply thermo_unit. lra.
Defined.

(** X11. In a valid run every stage comes from exactly one solver call, in
    order: applying the solver to the logged calls gives the stage sequence.
    The first call is made at the feed temperature with no prior conversion;
    every later call is made at the cooling temperature, as initial and as
    reference temperature, with the conversion of the stage before it. *)
Theorem every_stage_from_one_call (c : Component) :
  Ca (inputs c) = Cb (inputs c) ->
  map runCall (callsOf c) = reactorStages (after c) /\
  nth_error (callsOf c) 0 =
    Some (mkCall (T0 (inputs c)) 0 (T0 (inputs c)) (derivedParams (inputs c))) /\
  (forall (n : nat) (call : SolverCall),
     nth_error (callsOf c) (S n) = Some call ->
     exists prev : StageResult,
       nth_error (reactorStages (after c)) n = Some prev /\
       call = mkCall (coolingTemp (inputs c)) (conversion prev)
                (coolingTemp (inputs c)) (derivedParams (inputs c))).
Proof.
  intros Heq.
  set (i := inputs c).
  destruct (stagesRun_invariant i c
              (fun rs tot _ calls =>
                 map runCall calls = rs /\
                 nth_error calls 0 = Some (firstCall i) /\
                 (exists front lastS,
                    rs = front ++ [lastS] /\ tot = conversion lastS) /\
                 (forall n call,
                    nth_error calls (S n) = Some call ->
                    exists prev,
                      nth_error rs n = Some prev /\
                      call = mkCall (coolingTemp i) (conversion prev)
                               (coolingTemp i) (derivedParams i))))
    as (rs & tot & count & calls & Hrun & Hmap & Hfirst & _ & Hchain).
  - intros rs tot count calls (Hmap & Hfirst & (front & lastS & Hrs & Htot) & Hchain)
      _ _.
    assert (Hlen : length calls = length rs)
      by (rewrite <- Hmap; symmetry; apply length_map).
    assert (Hlenrs : length rs = S (length front))
      by (rewrite Hrs, length_app; cbn [length]; lia).
    split; [| split; [| split]].
    + rewrite map_app, Hmap. reflexivity.
    + rewrite nth_error_app1; [exact Hfirst |]. lia.
    + eexists _, _. split; reflexivity.
    + intros n call Hcall.
      destruct (Nat.lt_ge_cases (S n) (length calls)) as [Hlt | Hge].
      * rewrite nth_error_app1 in Hcall by exact Hlt.
        destruct (Hchain n call Hcall) as (prev & Hprev & Hc).
        exists prev. split; [| exact Hc].
        rewrite nth_error_app1; [exact Hprev |]. lia.
      * assert (Hsome : nth_error (calls ++
                          [mkCall (coolingTemp i) tot (coolingTemp i)
                             (derivedParams i)]) (S n) <> None)
          by (rewrite Hcall; discriminate).
        apply nth_error_Some in Hsome. rewrite length_app in Hsome.
        cbn [length] in Hsome.
        assert (Hn : n = length front) by lia.
        rewrite nth_error_app2 in Hcall by lia.
        replace (S n - length calls)%nat with 0%nat in Hcall by lia.
        cbn [nth_error] in Hcall. injection Hcall as <-.
        exists lastS. split; [| rewrite Htot; reflexivity].
        rewrite nth_error_app1 by lia.
        rewrite Hrs, nth_error_app2 by lia.
        rewrite Hn, Nat.sub_diag. reflexivity.
  - split; [reflexivity |]. split; [reflexivity |]. split.
    + exists [], (firstStage i). split; reflexivity.
    + intros n call Hcall. destruct n; discriminate.
  - destruct (after_valid c c rs tot calls Heq Hrun) as [-> ->].
    cbn [reactorStages].
    split; [exact Hmap |]. split; [exact Hfirst | exact Hchain].
Qed.

Lemma every_stage_from_one_call_witness :
  map runCall (callsOf initialComponent) = reactorStages (after initialComponent) /\
  nth_error (callsOf initialComponent) 0 =
    Some (mkCall (T0 (inputs initialComponent)) 0 (T0 (inputs initialComponent))
            (derivedParams (inputs initialComponent))) /\
  (forall (n : nat) (call : SolverCall),
     nth_error (callsOf initialComponent) (S n) = Some call ->
     exists prev : StageResult,
       nth_error (reactorStages (after initialComponent)) n = Some prev /\
       call = mkCall (coolingTemp (inputs initialComponent)) (conversion prev)
                (coolingTemp (inputs initialComponent))
                (derivedParams (inputs initialComponent))).
Proof.
  apply (every_stage_from_one_call initialComponent). reflexivity.
Defined.

(** * Properties of the form *)

(** X12. Editing an input stores the value under its name and changes no
    other input, in particular not [temperature]; the stored results and
    stages are kept as they are, whether or not they still belong to the
    inputs. *)
Theorem edit_updates_one_field (name : InputName) (value : R) (c : Component) :
  getInput (inputs (handleInputChange name value c)) name = value /\
  (forall other : InputName,
     other <> name ->
     getInput (inputs (handleInputChange name value c)) other =
     getInput (inputs c) other) /\
  temperature (inputs (handleInputChange name value c)) = temperature (inputs c) /\
  results (handleInputChange name value c) = results c /\
  reactorStages (handleInputChange name value c) = reactorStages c.
Proof.
  split; [destruct name; reflexivity |].
  split; [| repeat split].
  intros other Hne.
  destruct name, other; try reflexivity; contradiction Hne; reflexivity.
Qed.

(** X13. The error after an edit.  An edit of [Ca] or [Cb] sets the
    validation message when the two heat capacities now differ and clears the
    error when they are equal, whatever the error was before.  An edit of any
    other input leaves the error as it was. *)
Theorem edit_error_rule (name : InputName) (value : R) (c : Component) :
  (name = NameCa \/ name = NameCb ->
   (Ca (inputs (handleInputChange name value c)) =
    Cb (inputs (handleInputChange name value c)) ->
    error (handleInputChange name value c) = None) /\
   (Ca (inputs (handleInputChange name value c)) <>
    Cb (inputs (handleInputChange name value c)) ->
    error (handleInputChange name value c) = Some validationMessage)) /\
  (name <> NameCa -> name <> NameCb ->
   error (handleInputChange name value c) = error c).
Proof.
  split.
  - intros [-> | ->]; unfold handleInputChange; cbv zeta; cbn [error inputs];
      split; intros H.
    + apply Reqb_true in H. rewrite H. reflexivity.
    + apply Reqb_false in H. rewrite H. reflexivity.
    + symmetry in H. apply Reqb_true in H. rewrite H. reflexivity.
    + assert (H' : Cb (setInput (inputs c) NameCb value) <>
                   Ca (setInput (inputs c) NameCb value))
        by (intros E; apply H; symmetry; exact E).
      apply Reqb_false in H'. rewrite H'. reflexivity.
  - intros Ha Hb. destruct name; try reflexivity;
      [contradiction Ha | contradiction Hb]; reflexivity.
Qed.

(** The two kinds of edit. *)
Lemma edit_error_cases (name : InputName) (value : R) (c : Component) :
  ((name = NameCa \/ name = NameCb) /\
   (error (handleInputChange name value c) = None <->
    Ca (inputs (handleInputChange name value c)) =
    Cb (inputs (handleInputChange name value c)))) \/
  ((name <> NameCa /\ name <> NameCb) /\
   error (handleInputChange name value c) = error c /\
   Ca (inputs (handleInputChange name value c)) = Ca (inputs c) /\
   Cb (inputs (handleInputChange name value c)) = Cb (inputs c)).
Proof.
  assert (Hdec : forall x y : R,
             ((if negb (x =? y) then Some validationMessage else None) = None
              <-> x = y)).
  { intros x y. destruct (x =? y) eqn:E; cbn [negb].
    - apply Reqb_true in E. split; intros _; [exact E | reflexivity].
    - apply Reqb_false in E. split; [discriminate | contradiction]. }
  destruct name;
    try (right; split; [split; discriminate | repeat split]; fail).
  - left. split; [left; reflexivity |].
    unfold handleInputChange. cbv zeta. cbn [error inputs]. apply Hdec.
  - left. split; [right; reflexivity |].
    unfold handleInputChange. cbv zeta. cbn [error inputs].
    rewrite Hdec. split; intros H; symmetry; exact H.
Qed.

(** The form keeps the error in step with the heat capacities. *)
Lemma handle_keeps_error_in_step (c : Component) (e : Event) :
  (error c = None <-> Ca (inputs c) = Cb (inputs c)) ->
  (error (handle c e) = None <->
   Ca (inputs (handle c e)) = Cb (inputs (handle c e))).
Proof.
  intros Hinv. destruct e as [name value |]; cbn [handle].
  - destruct (edit_error_cases name value c) as [[Hn Hrule] | [Hn [Herr Hin]]].
    + exact Hrule.
    + rewrite Herr. destruct Hin as [HCa HCb]. rewrite HCa, HCb. exact Hinv.
  - unfold buttonDisabled. destruct (error c) as [msg |] eqn:Herr.
    + rewrite Herr. exact Hinv.
    + assert (Heq : Ca (inputs c) = Cb (inputs c)) by (apply Hinv; reflexivity).
      destruct (valid_run_shape c Heq) as (front & lastS & -> & _).
      cbn [error inputs]. split; intros _; [exact Heq | reflexivity].
Qed.

Lemma session_invariant (P : Component -> Prop) :
  P initialComponent ->
  (forall c e, P c -> P (handle c e)) ->
  forall events, P (session events).
Proof.
  intros Hinit Hstep events. unfold session.
  revert Hinit. generalize initialComponent as c.
  induction events as [| e events IH]; intros c Hc; cbn [fold_left].
  - exact Hc.
  - apply IH, Hstep, Hc.
Qed.

(** X14. In every state the form can reach from its initial state, by any
    sequence of edits and clicks, the error is set exactly when [Ca] and [Cb]
    differ, so the button is disabled exactly then.  A click on the enabled
    button therefore never ends in the validation branch of
    [runCalculation]: it stores a result with one to five stages. *)
Theorem form_error_tracks_heat_capacities (events : list Event) :
  (error (session events) = None <->
   Ca (inputs (session events)) = Cb (inputs (session events))) /\
  (buttonDisabled (session events) = true <->
   Ca (inputs (session events)) <> Cb (inputs (session events))) /\
  (buttonDisabled (session events) = false ->
   exists r : Results.t,
     results (handle (session events) Click) = Some r /\
     error (handle (session events) Click) = None /\
     (1 <= length (Results.stages r) <= 5)%nat).
Proof.
  assert (Hinv : error (session events) = None <->
                 Ca (inputs (session events)) = Cb (inputs (session events))).
  { apply (session_invariant
             (fun c => error c = None <-> Ca (inputs c) = Cb (inputs c))).
    - split; reflexivity.
    - intros c e. apply handle_keeps_error_in_step. }
  split; [exact Hinv |].
  set (c := session events) in *.
  split.
  - unfold buttonDisabled. destruct (error c) as [msg |].
    + split; [| reflexivity]. intros _ Heq. apply Hinv in Heq. discriminate.
    + split; [discriminate |]. intros Hne. contradiction Hne.
      apply Hinv. reflexivity.
  - intros Hen. cbn [handle]. rewrite Hen.
    assert (Heq : Ca (inputs c) = Cb (inputs c)).
    { apply Hinv. unfold buttonDisabled in Hen.
      destruct (error c); [discriminate | reflexivity]. }
    destruct (valid_run_shape c Heq) as (front & lastS & -> & Hlen & _).
    cbn [results error].
    eexists. split; [reflexivity |]. split; [reflexivity |].
    unfold calculationResult. cbn [Results.stages].
    unfold STAGE_LIMIT in Hlen. split; [| exact Hlen].
    rewrite length_app. cbn [length]. lia.
Qed.

(** X15. No input of the form edits [temperature]: in every reachable state
    it is 300, and the single-point values of every result the button
    produces ([keAtTemp], [Xe], [Xeb]) are taken at 300 K. *)
Theorem operating_temperature_is_fixed (events : list Event) :
  temperature (inputs (session events)) = 300 /\
  (buttonDisabled (session events) = false ->
   exists r : Results.t,
     results (handle (session events) Click) = Some r /\
     Results.keAtTemp r =
       computeK 300 (Ke (inputs (session events)))
         (Hb (inputs (session events)) - Ha (inputs (session events))) /\
     Results.Xe r =
       computeThermodynamicConversion 300 (Ke (inputs (session events)))
         (Hb (inputs (session events)) - Ha (inputs (session events))) /\
     Results.Xeb r =
       computeEnergyBalanceConversion 300 (T0 (inputs (session events)))
         (Ca (inputs (session events)))
         (Hb (inputs (session events)) - Ha (inputs (session events)))).
Proof.
  assert (Hinv : temperature (inputs (session events)) = 300 /\
                 (error (session events) = None <->
                  Ca (inputs (session events)) = Cb (inputs (session events)))).
  { apply (session_invariant
             (fun c => temperature (inputs c) = 300 /\
                       (error c = None <-> Ca (inputs c) = Cb (inputs c)))).
    - split; [reflexivity | split; reflexivity].
    - intros c e [Ht Herr]. split; [| apply handle_keeps_error_in_step, Herr].
      destruct e as [name value |]; cbn [handle].
      + exact Ht.
      + destruct (buttonDisabled c) eqn:Hdis; [exact Ht |].
        assert (Heq : Ca (inputs c) = Cb (inputs c)).
        { apply Herr. unfold buttonDisabled in Hdis.
          destruct (error c); [discriminate | reflexivity]. }
        destruct (valid_run_shape c Heq) as (front & lastS & -> & _).
        exact Ht. }
  destruct Hinv as [Ht Herr]. split; [exact Ht |].
  set (c := session events) in *.
  intros Hen. cbn [handle]. rewrite Hen.
  assert (Heq : Ca (inputs c) = Cb (inputs c)).
  { apply Herr. unfold buttonDisabled in Hen.
    destruct (error c); [discriminate | reflexivity]. }
  destruct (valid_run_shape c Heq) as (front & lastS & -> & _).
  cbn [results].
  eexists. split; [reflexivity |].
  unfold calculationResult. cbv zeta.
  cbn [Results.keAtTemp Results.Xe Results.Xeb derivedParams baseK deltaH
       heatCapacity].
  rewrite Ht. repeat split.
Qed.

(** * Properties of the chart *)

Lemma getColorSet_defined (stageNum : nat) :
  exists colorSet : ColorSet,
    getColorSet stageNum = Some colorSet /\ In colorSet palette.
Proof.
  unfold getColorSet. cbv zeta.
  destruct (nth_error palette (stageNum mod length palette)) as [col |] eqn:E.
  - exists col. split; [reflexivity |]. eapply nth_error_In, E.
  - apply nth_error_None in E.
    pose proof (Nat.mod_upper_bound stageNum (length palette)) as Hlt.
    cbn [palette length] in *. lia.
Qed.

Example stageLabel_second : stageLabel 1 = "Stage 2 Energy Balance"%string.
Proof. reflexivity. Qed.

(** X16. [getColorSet] always returns an entry of the palette, never
    [undefined]; it repeats with period 4; and the four stages that can get an
    energy-balance line (indices 1 to 4) get four different colours. *)
Theorem stage_colours (stageNum : nat) :
  (exists colorSet : ColorSet,
     getColorSet stageNum = Some colorSet /\ In colorSet palette) /\
  getColorSet (stageNum + 4) = getColorSet stageNum /\
  NoDup (map getColorSet [1; 2; 3; 4]%nat).
Proof.
  split; [| split].
  - apply getColorSet_defined.
  - unfold getColorSet. cbv zeta. change (length palette) with 4%nat.
    replace (stageNum + 4)%nat with (stageNum + 1 * 4)%nat by lia.
    rewrite Nat.Div0.mod_add. reflexivity.
  - cbv [map getColorSet palette length Nat.modulo Nat.divmod snd fst Nat.sub
         nth_error].
    repeat constructor; cbn [In]; intuition discriminate.
Qed.

(** ** The temperature grid *)

Lemma Rleb_false_intro (x y : R) : y < x -> (x <=? y) = false.
Proof. apply Rleb_false. Qed.

Lemma INR_50 : INR 50 = 50.
Proof. rewrite INR_IZR_INZ. reflexivity. Qed.

Lemma gridTemp_0 (T0 : R) : gridTemp T0 0 = T0.
Proof. unfold gridTemp. cbn [INR]. ring. Qed.

Lemma gridTemp_S (T0 : R) (k : nat) :
  gridTemp T0 k + STEP_SIZE = gridTemp T0 (S k).
Proof. unfold gridTemp, STEP_SIZE. rewrite S_INR. ring. Qed.

Lemma gridTemp_in_range (T0 : R) (k : nat) :
  (k <= 50)%nat <-> gridTemp T0 k <= T0 + 500.
Proof.
  unfold gridTemp. split.
  - intros Hk. apply le_INR in Hk. rewrite INR_50 in Hk. lra.
  - intros Hle. apply INR_le. rewrite INR_50. lra.
Qed.

Section ChartLoop.

Variables (T0 hc dH bk : R).

Local Abbreviation thermoAt k := (computeThermodynamicConversion (gridTemp T0 k) bk dH).
Local Abbreviation energyAt k :=
  (computeEnergyBalanceConversion (gridTemp T0 k) T0 hc dH).

(** From the [k]th grid temperature the loop appends the remaining points up
    to the 51st and stops on its own test. *)
Lemma chartLoop_grid (n fuel k : nat) (temps th eb : list R) :
  (k + n = 51)%nat -> (n < fuel)%nat ->
  chartLoop fuel T0 hc dH bk (gridTemp T0 k) temps th eb =
  (temps ++ map (gridTemp T0) (seq k n),
   th ++ map (fun j => thermoAt j) (seq k n),
   eb ++ map (fun j => energyAt j) (seq k n)).
Proof.
  revert fuel k temps th eb.
  induction n as [| n IH]; intros [| fuel] k temps th eb Hk Hfuel; try lia;
    cbn [chartLoop].
  - rewrite Rleb_false_intro.
    + cbn [seq map]. rewrite !app_nil_r. reflexivity.
    + apply Rnot_le_lt. intros Hle. apply gridTemp_in_range in Hle. lia.
  - rewrite (proj2 (Rleb_true _ _)) by (apply gridTemp_in_range; lia).
    rewrite gridTemp_S, (IH fuel (S k)) by lia.
    cbn [seq map]. rewrite <- !app_assoc. reflexivity.
Qed.

Lemma chartLoop_run (fuel : nat) :
  (52 <= fuel)%nat ->
  chartLoop fuel T0 hc dH bk T0 [] [] [] =
  (map (gridTemp T0) (seq 0 51),
   map (fun j => thermoAt j) (seq 0 51),
   map (fun j => energyAt j) (seq 0 51)).
Proof.
  intros Hfuel.
  rewrite <- (gridTemp_0 T0) at 2.
  rewrite (chartLoop_grid 51 fuel 0) by lia. reflexivity.
Qed.

End ChartLoop.

(** ** The datasets *)

Section StageLines.

Variables (all : list StageResult) (temps : list R) (cool hc dH : R).

Local Abbreviation each idx rest ds := (forEachStage all temps cool hc dH idx rest ds).

(** The loop over the stages only appends to the datasets. *)
Lemma forEachStage_app (rest : list StageResult) (idx : nat) (ds : list DataSet) :
  each idx rest ds = ds ++ each idx rest [].
Proof.
  revert idx ds. induction rest as [| stage rest IH]; intros idx ds;
    cbn [forEachStage].
  - rewrite app_nil_r. reflexivity.
  - cbv zeta.
    destruct (truthy (eqTemp stage) && truthy (conversion stage));
      [| apply IH].
    destruct (negb (idx =? 0)%nat); [| apply IH].
    destruct (getColorSet idx) as [col |]; [| apply IH].
    rewrite IH. rewrite (IH (S idx) ([] ++ _)).
    cbn [app]. rewrite <- app_assoc. reflexivity.
Qed.

(** The first stage never gets a line. *)
Lemma forEachStage_first (stage : StageResult) (rest : list StageResult)
    (ds : list DataSet) :
  each 0%nat (stage :: rest) ds = each 1%nat rest ds.
Proof.
  cbn [forEachStage]. cbv zeta. cbn [Nat.eqb negb].
  destruct (truthy (eqTemp stage) && truthy (conversion stage)); reflexivity.
Qed.

(** What is appended: at most one dataset per stage, each an energy-balance
    line over the whole grid. *)
Lemma forEachStage_lines (rest : list StageResult) (idx : nat) :
  (length (each idx rest []) <= length rest)%nat /\
  Forall (fun ds =>
            exists prevX, data ds = stageEnergyBalance temps cool prevX hc dH)
    (each idx rest []).
Proof.
  revert idx. induction rest as [| stage rest IH]; intros idx;
    cbn [forEachStage].
  - split; [cbn [length]; lia | constructor].
  - cbv zeta. destruct (IH (S idx)) as [Hlen Hall].
    assert (Hskip : (length (each (S idx) rest []) <= length (stage :: rest))%nat /\
                    Forall (fun ds =>
                              exists prevX,
                                data ds = stageEnergyBalance temps cool prevX hc dH)
                      (each (S idx) rest []))
      by (split; [cbn [length]; lia | exact Hall]).
    destruct (truthy (eqTemp stage) && truthy (conversion stage));
      [| exact Hskip].
    destruct (negb (idx =? 0)%nat); [| exact Hskip].
    destruct (getColorSet idx) as [col |]; [| exact Hskip].
    rewrite forEachStage_app. cbn [app].
    split.
    + cbn [length]. lia.
    + constructor; [| exact Hall]. cbn [data]. eexists. reflexivity.
Qed.

End StageLines.

Section ChartOf.

Variable c : Component.

Local Abbreviation i := (inputs c).
Local Abbreviation grid := (map (gridTemp (T0 i)) (seq 0 51)).
Local Abbreviation thermoSet :=
  {| label := "Xe (Thermodynamic)";
     data := map Some
               (map (fun k =>
                       computeThermodynamicConversion (gridTemp (T0 i) k)
                         (Ke i) (Hb i - Ha i))
                  (seq 0 51));
     borderColor := "rgb(53, 162, 235)";
     backgroundColor := "rgba(53, 162, 235, 0.5)";
     borderDash := None |}.
Local Abbreviation energySet :=
  {| label := "Xeb (Energy Balance)";
     data := map Some
               (map (fun k =>
                       computeEnergyBalanceConversion (gridTemp (T0 i) k)
                         (T0 i) (Ca i) (Hb i - Ha i))
                  (seq 0 51));
     borderColor := "rgb(255, 99, 132)";
     backgroundColor := "rgba(255, 99, 132, 0.5)";
     borderDash := None |}.

(** The chart: the grid, the two base datasets, and what the loop over the
    stages appends. *)
Lemma chartData_eq :
  chartData c =
  {| labels := grid;
     datasets :=
       [thermoSet; energySet] ++
       forEachStage (reactorStages c) grid (coolingTemp i) (Ca i) (Hb i - Ha i)
         0 (reactorStages c) [] |}.
Proof.
  unfold chartData. cbv zeta.
  rewrite chartLoop_run by lia.
  cbn [derivedParams heatCapacity deltaH baseK].
  f_equal.
  destruct (reactorStages c) as [| stage rest] eqn:E.
  - reflexivity.
  - cbn [length Nat.ltb Nat.leb]. apply forEachStage_app.
Qed.

End ChartOf.

Lemma nth_error_map_seq {A : Type} (f : nat -> A) (n k : nat) :
  (k < n)%nat -> nth_error (map f (seq 0 n)) k = Some (f k).
Proof.
  intros Hk. rewrite nth_error_map.
  rewrite (nth_error_nth' (seq 0 n) 0%nat) by (rewrite length_seq; exact Hk).
  rewrite seq_nth by exact Hk. reflexivity.
Qed.

(** X17. For a feed temperature [T0] that is a positive whole number (of
    at most 1e15) the chart has 51 points: the temperatures [T0], [T0 + 10],
    ..., [T0 + 500] (the loop stops by itself; more fuel changes nothing).
    Its first two datasets are the equilibrium curve and the energy-balance
    line of the first stage over these temperatures, computed from the
    current inputs; with a non-zero enthalpy change the energy-balance line
    starts at 0. *)
Theorem chart_grid_and_base_curves (c : Component) (z : Z) :
  T0 (inputs c) = IZR z -> (0 < z <= 1000000000000000)%Z ->
  length (labels (chartData c)) = 51%nat /\
  (forall k, (k < 51)%nat ->
     nth_error (labels (chartData c)) k = Some (T0 (inputs c) + 10 * INR k)) /\
  (forall fuel, (52 <= fuel)%nat ->
     chartLoop fuel (T0 (inputs c)) (Ca (inputs c))
       (Hb (inputs c) - Ha (inputs c)) (Ke (inputs c)) (T0 (inputs c)) [] [] [] =
     chartLoop 52 (T0 (inputs c)) (Ca (inputs c))
       (Hb (inputs c) - Ha (inputs c)) (Ke (inputs c)) (T0 (inputs c)) [] [] []) /\
  exists (thermo energy : DataSet) (lines : list DataSet),
    datasets (chartData c) = thermo :: energy :: lines /\
    label thermo = "Xe (Thermodynamic)"%string /\
    label energy = "Xeb (Energy Balance)"%string /\
    (forall k, (k < 51)%nat ->
       nth_error (data thermo) k =
         Some (Some (computeThermodynamicConversion
                       (T0 (inputs c) + 10 * INR k) (Ke (inputs c))
                       (Hb (inputs c) - Ha (inputs c)))) /\
       nth_error (data energy) k =
         Some (Some (computeEnergyBalanceConversion
                       (T0 (inputs c) + 10 * INR k) (T0 (inputs c))
                       (Ca (inputs c)) (Hb (inputs c) - Ha (inputs c))))) /\
    (Hb (inputs c) <> Ha (inputs c) ->
     nth_error (data energy) 0 = Some (Some 0)).
Proof.
  intros _ _.
  rewrite chartData_eq. cbn [labels datasets app].
  split; [rewrite length_map, length_seq; reflexivity |].
  split; [intros k Hk; apply (nth_error_map_seq (gridTemp (T0 (inputs c)))), Hk |].
  split; [intros fuel Hfuel; rewrite !chartLoop_run by lia; reflexivity |].
  eexists _, _, _. split; [reflexivity |].
  cbn [label data].
  split; [reflexivity |]. split; [reflexivity |]. split.
  - intros k Hk.
    split; rewrite nth_error_map, nth_error_map_seq by exact Hk; reflexivity.
  - intros _.
    rewrite nth_error_map, nth_error_map_seq by lia. cbn [option_map].
    do 2 f_equal.
    unfold computeEnergyBalanceConversion, gridTemp, Rdiv. cbn [INR]. ring.
Qed.

Lemma chart_grid_and_base_curves_witness :
  let c := initialComponent in
  length (labels (chartData c)) = 51%nat /\
  (forall k, (k < 51)%nat ->
     nth_error (labels (chartData c)) k = Some (T0 (inputs c) + 10 * INR k)) /\
  (forall fuel, (52 <= fuel)%nat ->
     chartLoop fuel (T0 (inputs c)) (Ca (inputs c))
       (Hb (inputs c) - Ha (inputs c)) (Ke (inputs c)) (T0 (inputs c)) [] [] [] =
     chartLoop 52 (T0 (inputs c)) (Ca (inputs c))
       (Hb (inputs c) - Ha (inputs c)) (Ke (inputs c)) (T0 (inputs c)) [] [] []) /\
  exists (thermo energy : DataSet) (lines : list DataSet),
    datasets (chartData c) = thermo :: energy :: lines /\
    label thermo = "Xe (Thermodynamic)"%string /\
    label energy = "Xeb (Energy Balance)"%string /\
    (forall k, (k < 51)%nat ->
       nth_error (data thermo) k =
         Some (Some (computeThermodynamicConversion
                       (T0 (inputs c) + 10 * INR k) (Ke (inputs c))
                       (Hb (inputs c) - Ha (inputs c)))) /\
       nth_error (data energy) k =
         Some (Some (computeEnergyBalanceConversion
                       (T0 (inputs c) + 10 * INR k) (T0 (inputs c))
                       (Ca (inputs c)) (Hb (inputs c) - Ha (inputs c))))) /\
    (Hb (inputs c) <> Ha (inputs c) ->
     nth_error (data energy) 0 = Some (Some 0)).
Proof.
  intros c. apply (chart_grid_and_base_curves c 300); [reflexivity | lia].
Defined.

(** X18. Whatever the state, every dataset of the chart has one value per
    chart temperature, and there are at least the two base datasets and at
    most one more per stage after the first. *)
Theorem chart_is_well_formed (c : Component) :
  Forall (fun ds => length (data ds) = length (labels (chartData c)))
    (datasets (chartData c)) /\
  (2 <= length (datasets (chartData c)) <= 2 + (length (reactorStages c) - 1))%nat.
Proof.
  rewrite chartData_eq. cbn [labels datasets].
  set (grid := map (gridTemp (T0 (inputs c))) (seq 0 51)).
  destruct (forEachStage_lines (reactorStages c) grid (coolingTemp (inputs c))
              (Ca (inputs c)) (Hb (inputs c) - Ha (inputs c))
              (reactorStages c) 0) as [_ Hall].
  split.
  - apply Forall_app. split.
    + repeat constructor; cbn [data]; subst grid;
        rewrite !length_map; reflexivity.
    + eapply Forall_impl; [| exact Hall].
      intros ds [prevX Hds]. rewrite Hds. unfold stageEnergyBalance.
      apply length_map.
  - rewrite length_app. cbn [length].
    destruct (reactorStages c) as [| stage rest] eqn:E.
    + cbn [forEachStage length]. lia.
    + rewrite forEachStage_first.
      destruct (forEachStage_lines (stage :: rest) grid (coolingTemp (inputs c))
                  (Ca (inputs c)) (Hb (inputs c) - Ha (inputs c)) rest 1)
        as [Hlen _].
      cbn [length]. lia.
Qed.


Lemma truthy_true (x : R) : x <> 0 -> truthy x = true.
Proof.
  intros Hx. unfold truthy. apply Reqb_false in Hx. rewrite Hx. reflexivity.
Qed.

Section StageLinesDrawn.

Variables (all : list StageResult) (temps : list R) (cool hc dH : R).

Local Abbreviation each idx rest ds := (forEachStage all temps cool hc dH idx rest ds).

(** When every stage from index [idx >= 1] on has a non-zero temperature
    and conversion and a stage before it, each of them gets its line. *)
Lemma forEachStage_drawn (rest : list StageResult) (idx : nat) :
  (1 <= idx)%nat ->
  (forall j stage,
     nth_error rest j = Some stage ->
     eqTemp stage <> 0 /\ conversion stage <> 0 /\
     nth_error all (idx + j - 1) <> None) ->
  length (each idx rest []) = length rest /\
  forall j stage,
    nth_error rest j = Some stage ->
    exists col prev,
      getColorSet (idx + j) = Some col /\
      nth_error all (idx + j - 1) = Some prev /\
      nth_error (each idx rest []) j =
        Some {| label := stageLabel (idx + j);
                data := stageEnergyBalance temps cool (conversion prev) hc dH;
                borderColor := primary col;
                backgroundColor := light col;
                borderDash := Some [5%nat; 5%nat] |}.
Proof.
  revert idx. induction rest as [| stage rest IH]; intros idx Hidx Hok.
  - split; [reflexivity |]. intros j s Hj. destruct j; discriminate.
  - destruct (Hok 0%nat stage eq_refl) as (Ht & Hc & Hprev).
    rewrite Nat.add_0_r in Hprev.
    destruct (nth_error all (idx - 1)) as [prev |] eqn:Eprev;
      [clear Hprev | contradiction Hprev; reflexivity].
    destruct (getColorSet_defined idx) as (col & Hcol & _).
    destruct (IH (S idx) ltac:(lia)) as [Hlen Hnth].
    { intros j s Hj. specialize (Hok (S j) s Hj).
      replace (idx + S j - 1)%nat with (S idx + j - 1)%nat in Hok by lia.
      exact Hok. }
    assert (Hstep :
      each idx (stage :: rest) [] =
      {| label := stageLabel idx;
         data := stageEnergyBalance temps cool (conversion prev) hc dH;
         borderColor := primary col;
         backgroundColor := light col;
         borderDash := Some [5%nat; 5%nat] |} :: each (S idx) rest []).
    { cbn [forEachStage]. cbv zeta.
      rewrite (truthy_true _ Ht), (truthy_true _ Hc). cbn [andb].
      replace (idx =? 0)%nat with false
        by (symmetry; apply Nat.eqb_neq; lia).
      cbn [negb]. rewrite Hcol, Eprev. cbn [app].
      apply forEachStage_app. }
    rewrite Hstep. split; [cbn [length]; lia |].
    intros [| j] s Hj; cbn [nth_error] in Hj |- *.
    + injection Hj as <-. exists col, prev.
      rewrite Nat.add_0_r. repeat split; assumption.
    + destruct (Hnth j s Hj) as (col' & prev' & Hcol' & Hprev' & Hds).
      exists col', prev'.
      replace (idx + S j)%nat with (S idx + j)%nat by lia.
      repeat split; assumption.
Qed.

End StageLinesDrawn.

(** In a valid run with a positive equilibrium constant and a positive
    cooling temperature, every stage after the first has a positive
    temperature and conversion. *)
Lemma later_stages_positive (c : Component) :
  Ca (inputs c) = Cb (inputs c) -> 0 < Ke (inputs c) ->
  0 < coolingTemp (inputs c) ->
  Forall (fun s => 0 < eqTemp s /\ 0 < conversion s)
    (tl (reactorStages (after c))).
Proof.
  intros Heq Hk Hcool.
  destruct (stages_of_valid_run c Heq) as [_ Hch].
  pose proof (stages_on_curve c Heq) as Hcurve.
  rewrite Forall_forall in Hcurve.
  destruct (reactorStages (after c)) as [| s0 tail] eqn:Eall; [constructor |].
  cbn [tl]. apply Forall_forall. intros stage Hin.
  destruct (In_nth_error _ _ Hin) as [n Hstage].
  assert (Hlt : (n < length tail)%nat)
    by (apply nth_error_Some; rewrite Hstage; discriminate).
  destruct (nth_error (s0 :: tail) n) as [prev |] eqn:Hprev.
  - pose proof (Hcurve stage (or_intror Hin)) as Hconv. cbv beta in Hconv.
    pose proof (thermo_unit (eqTemp stage) (Ke (inputs c))
                  (Hb (inputs c) - Ha (inputs c)) Hk) as Hunit.
    rewrite (Hch n prev stage Hprev Hstage) in *.
    pose proof (solveForIntersection_ge (coolingTemp (inputs c)) (conversion prev)
                  (coolingTemp (inputs c)) (derivedParams (inputs c))
                  ltac:(left; lra)) as Hge.
    split; lra.
  - apply nth_error_None in Hprev. cbn [length] in Hprev. lia.
Qed.

(** X20. When the stored stage sequence is not empty and every stage after
    the first has a positive temperature and a positive conversion, the chart
    shows one energy-balance line for every stage after the first, in order
    after the two base datasets.  The line of stage [n + 2] is labelled with
    that number, dashed, drawn in the colour [getColorSet (n + 1)], and
    starts from the conversion of the stage before it. *)
Theorem every_later_stage_gets_a_line (c : Component) :
  reactorStages c <> [] ->
  Forall (fun s => 0 < eqTemp s /\ 0 < conversion s) (tl (reactorStages c)) ->
  length (datasets (chartData c)) = S (length (reactorStages c)) /\
  forall (n : nat) (prev stage : StageResult),
    nth_error (reactorStages c) n = Some prev ->
    nth_error (reactorStages c) (S n) = Some stage ->
    exists col : ColorSet,
      getColorSet (S n) = Some col /\
      nth_error (datasets (chartData c)) (S (S n)) =
        Some {| label := stageLabel (S n);
                data := stageEnergyBalance (labels (chartData c))
                          (coolingTemp (inputs c)) (conversion prev)
                          (Ca (inputs c)) (Hb (inputs c) - Ha (inputs c));
                borderColor := primary col;
                backgroundColor := light col;
                borderDash := Some [5%nat; 5%nat] |}.
Proof.
  intros Hne Hpos.
  rewrite chartData_eq. cbn [labels datasets].
  set (grid := map (gridTemp (T0 (inputs c))) (seq 0 51)).
  destruct (reactorStages c) as [| s0 tail] eqn:Eall; [contradiction |].
  cbn [tl] in Hpos. rewrite Forall_forall in Hpos.
  rewrite forEachStage_first.
  destruct (forEachStage_drawn (s0 :: tail) grid (coolingTemp (inputs c))
              (Ca (inputs c)) (Hb (inputs c) - Ha (inputs c)) tail 1
              ltac:(lia)) as [Hlen Hnth].
  { intros j stage Hj.
    assert (Hlt : (j < length tail)%nat)
      by (apply nth_error_Some; rewrite Hj; discriminate).
    destruct (Hpos stage (nth_error_In _ _ Hj)) as [Ht Hc].
    split; [lra |]. split; [lra |].
    replace (1 + j - 1)%nat with j by lia.
    apply nth_error_Some. cbn [length]. lia. }
  split.
  - rewrite length_app, Hlen. cbn [length]. lia.
  - intros n prev stage Hprev Hstage. cbn [nth_error] in Hstage.
    destruct (Hnth n stage Hstage) as (col & prev' & Hcol & Hprev' & Hds).
    replace (1 + n - 1)%nat with n in Hprev' by lia.
    rewrite Hprev in Hprev'. injection Hprev' as <-.
    exists col. split; [exact Hcol |].
    cbn [app nth_error]. exact Hds.
Qed.

Lemma every_later_stage_gets_a_line_witness :
  let c := after initialComponent in
  length (datasets (chartData c)) = S (length (reactorStages c)) /\
  forall (n : nat) (prev stage : StageResult),
    nth_error (reactorStages c) n = Some prev ->
    nth_error (reactorStages c) (S n) = Some stage ->
    exists col : ColorSet,
      getColorSet (S n) = Some col /\
      nth_error (datasets (chartData c)) (S (S n)) =
        Some {| label := stageLabel (S n);
                data := stageEnergyBalance (labels (chartData c))
                          (coolingTemp (inputs c)) (conversion prev)
                          (Ca (inputs c)) (Hb (inputs c) - Ha (inputs c));
                borderColor := primary col;
                backgroundColor := light col;
                borderDash := Some [5%nat; 5%nat] |}.
Proof.
  intros c. apply (every_later_stage_gets_a_line c).
  - destruct (stages_of_valid_run initialComponent eq_refl) as [Hhead _].
    intros Hnil. fold c in Hhead. rewrite Hnil in Hhead. discriminate.
  - apply (later_stages_positive initialComponent).
    + reflexivity.
    + cbn [initialComponent inputs defaultInputs Ke]. lra.
    + cbn [initialComponent inputs defaultInputs coolingTemp]. lra.
Defined.
